(** * Shallow embedding of [clean_dataset.py]

    The video quality gate of the data-prep-lab repository: the frame
    sampler and metric extractor ([analyze_video_quality]), the
    acceptance policy ([evaluate_video_acceptance]), the per-exercise
    counters ([default_stats]) and their aggregation ([clean_dataset],
    [generate_cleaning_report]).

    Python dictionaries that are used as maps become [gmap string _];
    the metrics dictionary, whose keys are fixed and whose values have
    one type each, becomes a record of optional fields (a missing key
    is [None], which is what [dict.get(key, default)] distinguishes).
    Python [float]/[numpy.float64] values are IEEE-754 binary64 numbers,
    modelled by [spec_float]. *)

From Stdlib Require Import ZArith Lia Ascii String SpecFloat.
From stdpp Require Import base option list strings gmap fin_maps.

Local Open Scope string_scope.
Local Open Scope list_scope.
Local Open Scope Z_scope.

(** ** Floats *)

Module PyFloat.

Abbreviation float := spec_float (only parsing).

Definition prec : Z := 53.
Definition emax : Z := 1024.

(** [float("nan")] *)
Definition nan : float := S754_nan.

(** [np.isnan] *)
Definition isnan (x : float) : bool :=
  match x with
  | S754_nan => true
  | _ => false
  end.

(** Conversion of a Python [int] that takes part in a comparison or a
    division with a float. *)
Definition of_int (n : Z) : float := binary_normalize prec emax n 0 false.

Definition lt (x y : float) : bool := SFltb x y.
Definition gt (x y : float) : bool := SFltb y x.
Definition ge (x y : float) : bool := SFleb y x.

(** [a / b] on two Python ints with [b <> 0]. *)
Definition truediv (a b : Z) : float :=
  SFdiv prec emax (of_int a) (of_int b).

(** The literals [0.01] and [0.3] as binary64 numbers. *)
Definition lit_0_01 : float := S754_finite false 5764607523034235 (-59).
Definition lit_0_3 : float := S754_finite false 5404319552844595 (-54).

End PyFloat.

Import PyFloat.

(** ** Module constants *)

Definition MIN_FRAME_WIDTH : Z := 640.
Definition MIN_FRAME_HEIGHT : Z := 360.
Definition MIN_SHARPNESS_SCORE : Z := 50.
Definition MIN_BRIGHTNESS : Z := 35.
Definition MAX_BRIGHTNESS : Z := 190.
Definition NUM_SAMPLED_FRAMES : Z := 20.
Definition FRAME_STRIDE : Z := 15.

Definition MOTION_MIN_PIXEL_CHANGE_RATIO : float := lit_0_01.
Definition MOTION_MIN_ACTIVE_FRAME_PCT : float := lit_0_3.

(** ** The metrics dictionary *)

Record Metrics := mkMetrics {
  width : option Z;
  height : option Z;
  mean_brightness : option float;
  sharpness_score : option float;
  motion_flag : option bool;
  motion_detected : option bool;
  motion_pairs : option Z;
  motion_active_pairs : option Z;
  motion_active_frame_pct : option float;
  motion_mean_change_ratio : option float;
  motion_max_change_ratio : option float
}.

(** The empty dictionary [{}]. *)
Definition empty_metrics : Metrics :=
  mkMetrics None None None None None None None None None None None.

(** ** Statistics dictionaries

    A stats dictionary maps ["Exercise"] to a string and every counter
    name to an int. *)

Inductive pyval :=
| PyStr (s : string)
| PyInt (n : Z).

Abbreviation Stats := (gmap string pyval) (only parsing).

(** Python's [+] on the two kinds of values a stats dictionary holds;
    [None] is a [TypeError]. *)
Definition py_add (a b : pyval) : option pyval :=
  match a, b with
  | PyInt x, PyInt y => Some (PyInt (x + y))
  | PyStr x, PyStr y => Some (PyStr (String.append x y))
  | _, _ => None
  end.

Definition default_stats (exercise_name : string) : Stats :=
  list_to_map
    [ ("Exercise", PyStr exercise_name);
      ("total_videos", PyInt 0);
      ("accepted_videos", PyInt 0);
      ("rejected_videos", PyInt 0);
      ("corrupted_files", PyInt 0);
      ("low_resolution", PyInt 0);
      ("too_dark", PyInt 0);
      ("too_bright", PyInt 0);
      ("blurry", PyInt 0);
      ("insufficient_motion", PyInt 0) ].

(** ** Code that mutates a stats dictionary

    A computation takes the dictionary it mutates and gives back a
    result and the mutated dictionary, or [None] when Python raises
    ([KeyError], [TypeError]). *)

Definition StatsM (A : Type) : Type := Stats → option (A * Stats).

#[global] Instance StatsM_ret : MRet StatsM := λ A x stats, Some (x, stats).
#[global] Instance StatsM_bind : MBind StatsM := λ A B f m stats,
  match m stats with
  | Some (x, stats') => f x stats'
  | None => None
  end.

(** [stats[key] += n] *)
Definition add_to (key : string) (n : pyval) : StatsM unit := λ stats,
  old ← stats !! key;
  new ← py_add old n;
  Some (tt, <[key := new]> stats).

Definition incr (key : string) : StatsM unit := add_to key (PyInt 1).

(** ** Acceptance evaluator *)

Definition evaluate_video_acceptance (metrics : Metrics) (issues : list string)
  : StatsM (bool * list string) :=
  let width := default 0 (metrics.(width)) in
  let height := default 0 (metrics.(height)) in
  let brightness := default nan (metrics.(mean_brightness)) in
  let sharpness := default nan (metrics.(sharpness_score)) in
  let motion_detected := default false (metrics.(motion_detected)) in
  let motion_flag := default false (metrics.(motion_flag)) in
  let reasons : list string := [] in
  let accepted := true in
  if bool_decide ("corrupted_file" ∈ issues) || isnan brightness || isnan sharpness then
    _ ← incr "corrupted_files";
    mret (false, reasons ++ ["corrupted_file"])
  else
    '(accepted, reasons) ←
      (if (width <? MIN_FRAME_WIDTH) || (height <? MIN_FRAME_HEIGHT) then
         _ ← incr "low_resolution";
         mret (false, reasons ++ ["low_resolution"])
       else mret (accepted, reasons));
    '(accepted, reasons) ←
      (if lt brightness (of_int MIN_BRIGHTNESS) then
         _ ← incr "too_dark";
         mret (false, reasons ++ ["too_dark"])
       else if gt brightness (of_int MAX_BRIGHTNESS) then
         _ ← incr "too_bright";
         mret (false, reasons ++ ["too_bright"])
       else mret (accepted, reasons));
    '(accepted, reasons) ←
      (if lt sharpness (of_int MIN_SHARPNESS_SCORE) then
         _ ← incr "blurry";
         mret (false, reasons ++ ["blurry"])
       else mret (accepted, reasons));
    '(accepted, reasons) ←
      (if negb motion_detected && motion_flag then
         _ ← incr "insufficient_motion";
         mret (false, reasons ++ ["insufficient_motion"])
       else mret (accepted, reasons));
    mret (accepted, reasons).

(** ** The decoder and the image operations

    [cv2] and [numpy] are libraries outside the repository.  What the
    analyzer calls on images is collected in one interface; a video
    opened with [cv2.VideoCapture(path)] is described by what its
    methods answer. *)

Class Vision := {
  Frame : Type;
  Gray : Type;
  (** [cv2.cvtColor(frame, cv2.COLOR_BGR2GRAY)] *)
  cvtColor : Frame → Gray;
  (** [float(gray.mean())] *)
  gray_mean : Gray → float;
  (** [float(cv2.Laplacian(gray, cv2.CV_64F).var())] *)
  laplacian_var : Gray → float;
  (** [cv2.GaussianBlur(gray, (5, 5), 0)] *)
  GaussianBlur : Gray → Gray;
  (** [cv2.absdiff] *)
  absdiff : Gray → Gray → Gray;
  (** [cv2.threshold(diff, t, 255, cv2.THRESH_BINARY)[1]] *)
  threshold : Gray → Z → Gray;
  (** [np.count_nonzero] *)
  count_nonzero : Gray → Z;
  (** [thresh.size] *)
  size_of : Gray → Z;
  (** [float(np.mean(xs))], [float(np.max(xs))] on a non-empty list *)
  np_mean : list float → float;
  np_max : list float → float
}.

Definition MOTION_DIFF_THRESHOLD : Z := 18.

(** [changed / float(total)]: a numpy division, which gives an
    infinity or a NaN when [total] is zero. *)
Definition np_truediv (a b : Z) : float := SFdiv prec emax (of_int a) (of_int b).

(** The answers of one [cv2.VideoCapture] object.  [read_at i] is the
    frame returned by [cap.read()] after
    [cap.set(cv2.CAP_PROP_POS_FRAMES, i)], or [None] when [ret] is
    false; the sampling loop positions the decoder before every read
    and never asks for the same index twice. *)
Record VideoCapture `{Vision} := {
  isOpened : bool;
  CAP_PROP_FRAME_WIDTH : Z;
  CAP_PROP_FRAME_HEIGHT : Z;
  CAP_PROP_FRAME_COUNT : Z;
  read_at : Z → option Frame
}.

(** The method calls made on the capture object, in program order. *)
Inductive cap_call :=
| CallIsOpened
| CallGet (prop : string)
| CallSetPos (frame_index : Z)
| CallRead
| CallRelease.

#[global] Instance cap_call_eq_dec : EqDecision cap_call.
Proof. solve_decision. Defined.

(** ** Frame sampler and metric extractor *)

(** The variables of the sampling loop ([pairs] is [motion_pairs]),
    and the calls made on the decoder so far. *)
Record LoopState `{Vision} := mkLoop {
  sampled_brightness : list float;
  sampled_sharpness : list float;
  frame_index : Z;
  samples_collected : Z;
  prev_gray_for_motion : option Gray;
  active_count : Z;
  pairs : Z;
  change_ratios : list float;
  calls : list cap_call
}.

Section Analyzer.
Context `{Vision}.
Variable MOTION_FLAGS : gmap string bool.

(** The condition of the [while] at line 82. *)
Definition loop_cond (num_frames frame_stride frame_count : Z) (st : LoopState) : bool :=
  (st.(samples_collected) <? num_frames)
  && (st.(frame_index) <? Z.max frame_count (num_frames * frame_stride + 1)).

(** One iteration, lines 83 to 113. *)
Definition loop_body (cap : VideoCapture) (motion_flag : bool) (frame_stride : Z)
    (st : LoopState) : LoopState :=
  let calls := st.(calls) ++ [CallSetPos st.(frame_index); CallRead] in
  match cap.(read_at) st.(frame_index) with
  | None =>
      mkLoop _ st.(sampled_brightness) st.(sampled_sharpness)
             (st.(frame_index) + frame_stride) st.(samples_collected)
             st.(prev_gray_for_motion) st.(active_count) st.(pairs)
             st.(change_ratios) calls
  | Some frame =>
      let gray := cvtColor frame in
      let sampled_brightness := st.(sampled_brightness) ++ [gray_mean gray] in
      let sampled_sharpness := st.(sampled_sharpness) ++ [laplacian_var gray] in
      let '(prev_gray_for_motion, active_count, motion_pairs, change_ratios) :=
        if motion_flag then
          let gray_blur := GaussianBlur gray in
          let '(active_count, motion_pairs, change_ratios) :=
            match st.(prev_gray_for_motion) with
            | Some prev =>
                let diff := absdiff gray_blur prev in
                let thresh := threshold diff MOTION_DIFF_THRESHOLD in
                let changed := count_nonzero thresh in
                let total := size_of thresh in
                let ratio := np_truediv changed total in
                (if ge ratio MOTION_MIN_PIXEL_CHANGE_RATIO
                 then st.(active_count) + 1 else st.(active_count),
                 st.(pairs) + 1,
                 st.(change_ratios) ++ [ratio])
            | None => (st.(active_count), st.(pairs), st.(change_ratios))
            end in
          (Some gray_blur, active_count, motion_pairs, change_ratios)
        else
          (st.(prev_gray_for_motion), st.(active_count), st.(pairs), st.(change_ratios)) in
      mkLoop _ sampled_brightness sampled_sharpness
             (st.(frame_index) + frame_stride) (st.(samples_collected) + 1)
             prev_gray_for_motion active_count motion_pairs change_ratios calls
  end.

(** The [while] loop.  Python gives no bound on the number of
    iterations (with a stride of zero a frame that does not decode is
    asked for again and again), so the model counts them down from
    [fuel]; [None] means that [fuel] iterations were not enough. *)
Fixpoint sampling_loop (fuel : nat) (cap : VideoCapture) (motion_flag : bool)
    (num_frames frame_stride frame_count : Z) (st : LoopState) : option LoopState :=
  if loop_cond num_frames frame_stride frame_count st then
    match fuel with
    | O => None
    | S fuel' =>
        sampling_loop fuel' cap motion_flag num_frames frame_stride frame_count
                      (loop_body cap motion_flag frame_stride st)
    end
  else Some st.

(** [analyze_video_quality]; [cap] stands for
    [cv2.VideoCapture(str(video_path))].  The result carries, next to
    the returned pair, the calls that were made on [cap]. *)
Definition analyze_video_quality (fuel : nat) (cap : VideoCapture)
    (num_frames frame_stride : Z) (exercise_name : string)
  : option (Metrics * list string * list cap_call) :=
  let issues : list string := [] in
  if negb cap.(isOpened) then
    Some (empty_metrics, ["corrupted_file"], [CallIsOpened])
  else
    let width := cap.(CAP_PROP_FRAME_WIDTH) in
    let height := cap.(CAP_PROP_FRAME_HEIGHT) in
    let frame_count := cap.(CAP_PROP_FRAME_COUNT) in
    let motion_flag := default false (MOTION_FLAGS !! exercise_name) in
    st ← sampling_loop fuel cap motion_flag num_frames frame_stride frame_count
          (mkLoop _ [] [] 0 0 None 0 0 []
             [CallIsOpened; CallGet "CAP_PROP_FRAME_WIDTH";
              CallGet "CAP_PROP_FRAME_HEIGHT"; CallGet "CAP_PROP_FRAME_COUNT"]);
    let calls := st.(calls) ++ [CallRelease] in
    let issues :=
      if st.(samples_collected) =? 0 then issues ++ ["corrupted_file"] else issues in
    let '(motion_detected, motion_active_frame_pct,
          motion_mean_change_ratio, motion_max_change_ratio) :=
      if motion_flag && (0 <? st.(pairs)) then
        let pct := truediv st.(active_count) st.(pairs) in
        (ge pct MOTION_MIN_ACTIVE_FRAME_PCT,
         pct,
         match st.(change_ratios) with [] => nan | _ => np_mean st.(change_ratios) end,
         match st.(change_ratios) with [] => nan | _ => np_max st.(change_ratios) end)
      else (false, nan, nan, nan) in
    let metrics :=
      {| width := Some width;
         height := Some height;
         mean_brightness :=
           Some (match st.(sampled_brightness) with
                 | [] => nan | _ => np_mean st.(sampled_brightness) end);
         sharpness_score :=
           Some (match st.(sampled_sharpness) with
                 | [] => nan | _ => np_mean st.(sampled_sharpness) end);
         motion_flag := Some motion_flag;
         motion_detected := Some motion_detected;
         motion_pairs := Some (if motion_flag then st.(pairs) else 0);
         motion_active_pairs := Some (if motion_flag then st.(active_count) else 0);
         motion_active_frame_pct := Some motion_active_frame_pct;
         motion_mean_change_ratio := Some motion_mean_change_ratio;
         motion_max_change_ratio := Some motion_max_change_ratio |} in
    Some (metrics, issues, calls).

End Analyzer.

(** ** File names *)

(** [str.lower] on the ASCII letters; file names are byte strings here. *)
Definition lower_ascii (c : ascii) : ascii :=
  let n := nat_of_ascii c in
  if ((65 <=? n) && (n <=? 90))%nat then ascii_of_nat (n + 32) else c.

Fixpoint lower (s : string) : string :=
  match s with
  | EmptyString => EmptyString
  | String c s' => String (lower_ascii c) (lower s')
  end.

(** [s.endswith(suffix)] *)
Definition endswith (s suffix : string) : bool :=
  let n := String.length s in
  let k := String.length suffix in
  (k <=? n)%nat && String.eqb (substring (n - k) k s) suffix.

Definition video_extensions : list string := [".mp4"; ".avi"; ".mov"].

(** [file.lower().endswith(video_extensions)] *)
Definition is_video (file : string) : bool :=
  existsb (endswith (lower file)) video_extensions.

(** ** Exercise aggregator *)

(** A [for] loop whose body may raise. *)
Fixpoint for_each {S A : Type} (body : S → A → option S) (st : S) (xs : list A)
  : option S :=
  match xs with
  | [] => Some st
  | x :: xs' => st' ← body st x; for_each body st' xs'
  end.

(** One record of [VIDEO_LOG]; the rounded metric columns are left out. *)
Record LogEntry := mkLog {
  log_exercise : string;
  log_file : string;
  log_decision : string;
  log_reasons : string
}.

(** What the loop over the files of one folder changes. *)
Record FolderState := mkFolder {
  exercise_stats : Stats;
  any_video : bool;
  folder_log : list LogEntry;
  folder_copied : list (string * string)
}.

(** What [clean_dataset] builds: [VIDEO_LOG], the files copied to the
    cleaned tree (folder and file name), [overall_exercise_stats] and
    [totals]. *)
Record RunState := mkRun {
  VIDEO_LOG : list LogEntry;
  copied : list (string * string);
  overall_exercise_stats : list Stats;
  totals : Stats
}.

(** The keys of a dictionary, for [for key in totals].  Python visits
    them in insertion order; the loop body touches one key at a time,
    so the order has no effect on the result. *)
Definition keys (d : Stats) : list string := (map_to_list d).*1.

(** Lines 348 and 349: the body of [for key in totals]. *)
Definition fold_key (exercise_stats : Stats) (totals : Stats) (key : string)
  : option Stats :=
  if decide (key ≠ "Exercise") then
    old ← totals !! key;
    v ← exercise_stats !! key;
    new ← py_add old v;
    Some (<[key := new]> totals)
  else Some totals.

(** Lines 347 to 349. *)
Definition fold_into_totals (totals exercise_stats : Stats) : option Stats :=
  for_each (fold_key exercise_stats) totals (keys totals).

(** ** Report *)

Definition counter_columns : list string :=
  [ "total_videos"; "accepted_videos"; "rejected_videos"; "corrupted_files";
    "low_resolution"; "too_dark"; "too_bright"; "blurry"; "insufficient_motion" ].

Definition report_columns : list string := "Exercise" :: counter_columns.

(** [df[columns]] on one row: the row restricted to the columns, which
    must all be there. *)
Definition select (columns : list string) (row : Stats) : option Stats :=
  cells ← mapM (λ col, (λ v, (col, v)) <$> row !! col) columns;
  Some (list_to_map cells).

(** The range of numpy's [int64], the type that pandas gives a column
    of Python ints. *)
Definition int64_min : Z := - 2 ^ 63.
Definition int64_max : Z := 2 ^ 63 - 1.

(** The integer of 64 bits, two's complement, that [n] wraps around to. *)
Definition wrap_int64 (n : Z) : Z := (n + 2 ^ 63) mod 2 ^ 64 - 2 ^ 63.

(** [df[col].sum()] on a column of ints within the [int64] range:
    pandas holds such a column as [int64] and adds it up in [int64],
    so the sum wraps around.  (A cell outside the range makes pandas
    choose another column type; no statement below is about such a
    table.) *)
Definition column_sum (col : string) (df : list Stats) : option pyval :=
  cells ← mapM (λ row, match row !! col with
                       | Some (PyInt n) => Some n
                       | _ => None
                       end) df;
  Some (PyInt (wrap_int64 (foldr Z.add 0 cells))).

Inductive report :=
| NoStats
| Table (rows : list Stats).

(** [generate_cleaning_report]: the rows of the table that is printed
    and saved; [NoStats] is the early return. *)
Definition generate_cleaning_report (overall_exercise_stats : list Stats)
    (totals : Stats) : option report :=
  match overall_exercise_stats with
  | [] => Some NoStats
  | _ =>
      df ← mapM (select report_columns) overall_exercise_stats;
      sums ← mapM (λ col, (λ v, (col, v)) <$> column_sum col df) counter_columns;
      let total_row : Stats := list_to_map (("Exercise", PyStr "TOTAL") :: sums) in
      Some (Table (df ++ [total_row]))
  end.

(** ** The cleaning loop *)

Section Cleaner.
Context `{Vision}.
Variable MOTION_FLAGS : gmap string bool.

(** Iterations granted to the sampling loop of one video: with the
    stride [FRAME_STRIDE] the loop never needs more (see
    [sampling_loop_enough]). *)
Definition analysis_fuel (cap : VideoCapture) : nat :=
  Z.to_nat (Z.max cap.(CAP_PROP_FRAME_COUNT) (NUM_SAMPLED_FRAMES * FRAME_STRIDE + 1)).

(** Lines 310 to 341: the body of [for file in files] for a video file. *)
Definition process_video (folder_name : string) (st : FolderState)
    (entry : string * VideoCapture) : option FolderState :=
  let '(file, cap) := entry in
  '(_, stats) ← add_to "total_videos" (PyInt 1) st.(exercise_stats);
  '(metrics, issues, _) ←
    analyze_video_quality MOTION_FLAGS (analysis_fuel cap) cap
      NUM_SAMPLED_FRAMES FRAME_STRIDE folder_name;
  '(accepted, reasons, stats) ← evaluate_video_acceptance metrics issues stats;
  let decision := if accepted : bool then "accepted" else "rejected" in
  let log :=
    st.(folder_log) ++
      [mkLog folder_name file decision
         (match reasons with
          | [] => "passed_all_checks"
          | _ => String.concat ", " reasons
          end)] in
  if accepted then
    '(_, stats) ← add_to "accepted_videos" (PyInt 1) stats;
    Some (mkFolder stats true log (st.(folder_copied) ++ [(folder_name, file)]))
  else
    '(_, stats) ← add_to "rejected_videos" (PyInt 1) stats;
    Some (mkFolder stats true log st.(folder_copied)).

(** Lines 305 to 341. *)
Definition process_file (folder_name : string) (st : FolderState)
    (entry : string * VideoCapture) : option FolderState :=
  if negb (is_video entry.1) then Some st
  else process_video folder_name st entry.

Definition process_files (folder_name : string) (st : FolderState)
    (files : list (string * VideoCapture)) : option FolderState :=
  for_each (process_file folder_name) st files.

(** Lines 296 to 349: the body of the loop over [os.walk]; a folder is
    its name and its files. *)
Definition process_folder (run : RunState)
    (dir : string * list (string * VideoCapture)) : option RunState :=
  let '(folder_name, files) := dir in
  if (length files =? 0)%nat then Some run
  else
    fs ← process_files folder_name
           (mkFolder (default_stats folder_name) false run.(VIDEO_LOG) run.(copied))
           files;
    if fs.(any_video) then
      totals ← fold_into_totals run.(totals) fs.(exercise_stats);
      Some (mkRun fs.(folder_log) fs.(folder_copied)
              (run.(overall_exercise_stats) ++ [fs.(exercise_stats)]) totals)
    else
      Some (mkRun fs.(folder_log) fs.(folder_copied)
              run.(overall_exercise_stats) run.(totals)).

(** [clean_dataset]: the walk over the folders, then the report. *)
Definition clean_dataset (walk : list (string * list (string * VideoCapture)))
  : option (RunState * report) :=
  run ← for_each process_folder (mkRun [] [] [] (default_stats "ALL_EXERCISES")) walk;
  table ← generate_cleaning_report run.(overall_exercise_stats) run.(totals);
  Some (run, table).

End Cleaner.

(** ** Vocabulary of the statements *)

(** The counter that a reason is counted under. *)
Definition counter_of (reason : string) : string :=
  if String.eqb reason "corrupted_file" then "corrupted_files" else reason.

Definition reason_counters : list string :=
  [ "corrupted_files"; "low_resolution"; "too_dark"; "too_bright"; "blurry";
    "insufficient_motion" ].

(** Every key of [cols] holds an int. *)
Definition ints_at (cols : list string) (stats : Stats) : Prop :=
  ∀ key, key ∈ cols → ∃ n, stats !! key = Some (PyInt n).

(** The dictionary after [stats[key] += 1] on an int. *)
Definition bump (stats : Stats) (key : string) : Stats :=
  match stats !! key with
  | Some (PyInt n) => <[key := PyInt (n + 1)]> stats
  | _ => stats
  end.

(** The conditions of the evaluator, read off the metrics. *)
Definition is_corrupted (metrics : Metrics) (issues : list string) : bool :=
  bool_decide ("corrupted_file" ∈ issues)
  || isnan (default nan metrics.(mean_brightness))
  || isnan (default nan metrics.(sharpness_score)).

Definition low_resolution (metrics : Metrics) : bool :=
  (default 0 metrics.(width) <? MIN_FRAME_WIDTH)
  || (default 0 metrics.(height) <? MIN_FRAME_HEIGHT).

Definition too_dark (metrics : Metrics) : bool :=
  lt (default nan metrics.(mean_brightness)) (of_int MIN_BRIGHTNESS).

Definition too_bright (metrics : Metrics) : bool :=
  gt (default nan metrics.(mean_brightness)) (of_int MAX_BRIGHTNESS).

Definition blurry (metrics : Metrics) : bool :=
  lt (default nan metrics.(sharpness_score)) (of_int MIN_SHARPNESS_SCORE).

Definition insufficient_motion (metrics : Metrics) : bool :=
  negb (default false metrics.(motion_detected))
  && default false metrics.(motion_flag).

(** The reasons the evaluator gives, as a function of its input. *)
Definition reasons_of (metrics : Metrics) (issues : list string) : list string :=
  if is_corrupted metrics issues then ["corrupted_file"]
  else
    (if low_resolution metrics then ["low_resolution"] else [])
    ++ (if too_dark metrics then ["too_dark"]
        else if too_bright metrics then ["too_bright"] else [])
    ++ (if blurry metrics then ["blurry"] else [])
    ++ (if insufficient_motion metrics then ["insufficient_motion"] else []).

(** The frame indices the decoder was positioned at, in call order. *)
Definition positions (calls : list cap_call) : list Z :=
  omap (λ c, match c with CallSetPos i => Some i | _ => None end) calls.

(** The candidate indices [start], [start + stride], ... ([m] of them). *)
Fixpoint candidates (start stride : Z) (m : nat) : list Z :=
  match m with
  | O => []
  | S m' => start :: candidates (start + stride) stride m'
  end.

(** How many of the indices [l] decode to a frame. *)
Definition decoded `{Vision} (cap : VideoCapture) (l : list Z) : Z :=
  Z.of_nat (length (filter (λ i, is_Some (cap.(read_at) i)) l)).

(** The bound of the sampling loop on the frame index. *)
Definition index_bound (num_frames frame_stride frame_count : Z) : Z :=
  Z.max frame_count (num_frames * frame_stride + 1).

(** A float metric is undefined when its key is missing or it is NaN. *)
Definition undefined (x : option float) : Prop := x = None ∨ x = Some S754_nan.

(** The decoder handle was released during the calls. *)
Definition released (calls : list cap_call) : Prop := CallRelease ∈ calls.

(** ** A small interpretation of the image operations

    One-row grayscale images, given by their pixel values; it serves
    the examples. *)

Definition row_sum (g : list Z) : Z := foldr Z.add 0 g.

(** Second differences of a row. *)
Fixpoint second_diff (g : list Z) : list Z :=
  match g with
  | a :: (b :: c :: _) as g' => (a - 2 * b + c) :: second_diff g'
  | _ => []
  end.

Definition float_sum (xs : list float) : float :=
  foldr (SFadd prec emax) (S754_zero false) xs.

Definition row_images : Vision := {|
  Frame := list Z;
  Gray := list Z;
  cvtColor := λ frame, frame;
  gray_mean := λ g, np_truediv (row_sum g) (Z.of_nat (length g));
  laplacian_var := λ g,
    np_truediv (row_sum ((λ d, d * d) <$> second_diff g))
               (Z.of_nat (length (second_diff g)));
  GaussianBlur := λ g, g;
  absdiff := λ a b, zip_with (λ x y, Z.abs (x - y)) a b;
  threshold := λ g t, (λ p, if t <? p then 255 else 0) <$> g;
  count_nonzero := λ g, Z.of_nat (length (filter (λ p, p ≠ 0) g));
  size_of := λ g, Z.of_nat (length g);
  np_mean := λ xs, SFdiv prec emax (float_sum xs) (of_int (Z.of_nat (length xs)));
  np_max := λ xs, foldr (λ x acc, if SFltb acc x then x else acc) (S754_infinity true) xs
|}.

Definition row_frame (pixels : list Z) : @Frame row_images := pixels.

(** A file that the decoder cannot open. *)
Definition unopened : @VideoCapture row_images :=
  {| isOpened := false;
     CAP_PROP_FRAME_WIDTH := 0;
     CAP_PROP_FRAME_HEIGHT := 0;
     CAP_PROP_FRAME_COUNT := 0;
     read_at := λ _, None |}.

(** A 320x240 clip of 40 identical dark, flat frames. *)
Definition dark_clip : @VideoCapture row_images :=
  {| isOpened := true;
     CAP_PROP_FRAME_WIDTH := 320;
     CAP_PROP_FRAME_HEIGHT := 240;
     CAP_PROP_FRAME_COUNT := 40;
     read_at := λ i, if (0 <=? i) && (i <? 40) then Some (row_frame [20; 21; 20; 19]) else None |}.

(** A 1280x720 clip of 400 frames, sharp, well lit, and moving. *)
Definition good_clip : @VideoCapture row_images :=
  {| isOpened := true;
     CAP_PROP_FRAME_WIDTH := 1280;
     CAP_PROP_FRAME_HEIGHT := 720;
     CAP_PROP_FRAME_COUNT := 400;
     read_at := λ i, if (0 <=? i) && (i <? 400)
                     then Some (row_frame [100 + i mod 60; 40; 160; 90 - i mod 50]) else None |}.

(** A file that opens but of which no frame decodes. *)
Definition undecodable : @VideoCapture row_images :=
  {| isOpened := true;
     CAP_PROP_FRAME_WIDTH := 1280;
     CAP_PROP_FRAME_HEIGHT := 720;
     CAP_PROP_FRAME_COUNT := 100;
     read_at := λ _, None |}.

Definition squat_flags : gmap string bool := {[ "squat" := true ]}.

(** The int under [col] in a stats dictionary. *)
Definition field (col : string) (row : Stats) : Z :=
  match row !! col with
  | Some (PyInt n) => n
  | _ => 0
  end.

(** The sum of the column [col] over the rows. *)
Definition field_sum (col : string) (rows : list Stats) : Z :=
  foldr (λ row acc, field col row + acc) 0 rows.

(** A per-exercise record: a name and an int under each counter. *)
Definition row_ok (row : Stats) : Prop :=
  is_Some (row !! "Exercise") ∧ ints_at counter_columns row.

(** The totals dictionary: the keys of [default_stats], ints under the counters. *)
Definition totals_ok (totals : Stats) : Prop :=
  ints_at counter_columns totals
  ∧ ∀ key, is_Some (totals !! key) → key ∈ report_columns.

(** [total_videos = accepted_videos + rejected_videos] *)
Definition balanced (stats : Stats) : Prop :=
  ∃ accepted rejected,
    stats !! "total_videos" = Some (PyInt (accepted + rejected))
    ∧ stats !! "accepted_videos" = Some (PyInt accepted)
    ∧ stats !! "rejected_videos" = Some (PyInt rejected).

(** The state of a run: the totals are the column sums of the finished
    records, and every finished record is well formed and balanced. *)
Definition run_ok (run : RunState) : Prop :=
  totals_ok run.(totals)
  ∧ Forall row_ok run.(overall_exercise_stats)
  ∧ Forall balanced run.(overall_exercise_stats)
  ∧ ∀ col, col ∈ counter_columns →
      run.(totals) !! col = Some (PyInt (field_sum col run.(overall_exercise_stats))).

(** The metrics of the scenario with four failed checks. *)
Definition small_dark_blurry_still : Metrics :=
  mkMetrics (Some 320) (Some 240) (Some (of_int 20)) (Some (of_int 10))
            (Some true) (Some false) (Some 3) (Some 0)
            (Some (S754_zero false)) (Some (S754_zero false)) (Some (S754_zero false)).


(** The state in which the analyzer enters its loop. *)
Definition first_state : @LoopState row_images :=
  mkLoop row_images [] [] 0 0 None 0 0 []
    [CallIsOpened; CallGet "CAP_PROP_FRAME_WIDTH";
     CallGet "CAP_PROP_FRAME_HEIGHT"; CallGet "CAP_PROP_FRAME_COUNT"].

(** What the analyzer returns for [dark_clip] in the folder ["plank"],
    which has no motion flag. *)
Definition dark_clip_metrics : Metrics :=
  Eval vm_compute in
    match analyze_video_quality (H := row_images) squat_flags 30 dark_clip 20 15 "plank" with
    | Some (metrics, _, _) => metrics
    | None => empty_metrics
    end.

Definition dark_clip_trace : list cap_call :=
  Eval vm_compute in
    match analyze_video_quality (H := row_images) squat_flags 30 dark_clip 20 15 "plank" with
    | Some (_, _, trace) => trace
    | None => []
    end.

(** ** Vocabulary of the further statements: the analyzer *)

(** The calls made on the decoder before the sampling loop. *)
Definition opening_calls : list cap_call :=
  [CallIsOpened; CallGet "CAP_PROP_FRAME_WIDTH";
   CallGet "CAP_PROP_FRAME_HEIGHT"; CallGet "CAP_PROP_FRAME_COUNT"].

(** The calls of the loop for the indices [l]: position, then read. *)
Definition visits (l : list Z) : list cap_call :=
  l ≫= λ i, [CallSetPos i; CallRead].

(** The loop variables on entry of the loop (lines 70 to 78). *)
Definition loop_start `{Vision} : LoopState :=
  mkLoop _ [] [] 0 0 None 0 0 [] opening_calls.

(** What the loop variables satisfy after any number of iterations. *)
Definition loop_inv `{Vision} (cap : VideoCapture) (flag : bool) (st : LoopState) : Prop :=
  ∃ visited,
    st.(calls) = opening_calls ++ visits visited
    ∧ st.(samples_collected) = decoded cap visited
    ∧ Z.of_nat (length st.(sampled_brightness)) = st.(samples_collected)
    ∧ Z.of_nat (length st.(sampled_sharpness)) = st.(samples_collected)
    ∧ Z.of_nat (length st.(change_ratios)) = st.(pairs)
    ∧ 0 ≤ st.(active_count) ≤ st.(pairs)
    ∧ st.(pairs) = (if flag then Z.max 0 (st.(samples_collected) - 1) else 0)
    ∧ (st.(prev_gray_for_motion) = None ↔ flag = false ∨ st.(samples_collected) = 0).

(** ** Vocabulary of the further statements: the cleaning loop *)

(** The folder and the file that a log record is about. *)
Definition logged (log : list LogEntry) : list (string * string) :=
  (λ e, (log_exercise e, log_file e)) <$> log.

(** The folder and file of the records that were accepted. *)
Definition accepted_of (log : list LogEntry) : list (string * string) :=
  omap (λ e, if String.eqb (log_decision e) "accepted"
             then Some (log_exercise e, log_file e) else None) log.

(** The decision and the reasons column of a record agree. *)
Definition entry_ok (e : LogEntry) : Prop :=
  (log_decision e = "accepted" ∧ log_reasons e = "passed_all_checks")
  ∨ (log_decision e = "rejected" ∧ log_reasons e ≠ "passed_all_checks").

(** The video files of a folder, with the folder name, in listing order. *)
Definition video_names `{Vision} (folder : string)
    (files : list (string * VideoCapture)) : list (string * string) :=
  (λ e, (folder, e.1)) <$> filter (λ e, is_video e.1 = true) files.

(** No reason counter is negative or above [rejected_videos]. *)
Definition reasons_bounded (stats : Stats) : Prop :=
  ∀ c, c ∈ reason_counters → 0 ≤ field c stats ≤ field "rejected_videos" stats.

(** The names under ["Exercise"] of a list of records. *)
Definition exercise_names (rows : list Stats) : list (option pyval) :=
  (λ row, row !! "Exercise") <$> rows.

(** The folders of a walk that hold at least one video file. *)
Definition folders_with_videos `{Vision}
    (walk : list (string * list (string * VideoCapture))) : list string :=
  omap (λ d, if existsb (λ e, is_video e.1) d.2 then Some d.1 else None) walk.

(** The video files of a walk, folder by folder. *)
Definition walk_videos `{Vision}
    (walk : list (string * list (string * VideoCapture))) : list (string * string) :=
  walk ≫= λ d, video_names d.1 d.2.

(** The bookkeeping of a run: the copies are the accepted records of
    the log, the records of the log are coherent, and the totals count
    the log. *)
Definition audit_ok (run : RunState) : Prop :=
  run.(copied) = accepted_of run.(VIDEO_LOG)
  ∧ Forall entry_ok run.(VIDEO_LOG)
  ∧ field "total_videos" run.(totals) = Z.of_nat (length run.(VIDEO_LOG))
  ∧ field "accepted_videos" run.(totals) = Z.of_nat (length run.(copied))
  ∧ field "rejected_videos" run.(totals)
    = Z.of_nat (length run.(VIDEO_LOG)) - Z.of_nat (length run.(copied))
  ∧ reasons_bounded run.(totals)
  ∧ Forall reasons_bounded run.(overall_exercise_stats).

(** ** Copying a video *)

(** A [pathlib] path of the POSIX flavour: whether it starts at the
    root, and its components. *)
Record Path := mkPath {
  absolute : bool;
  parts : list string
}.

(** [self.relative_to(other)]: raises [ValueError] unless [other] is
    [self] or one of its parents. *)
Definition relative_to (self other : Path) : option Path :=
  if bool_decide (absolute self = absolute other)
     && bool_decide (parts other `prefix_of` parts self)
  then Some (mkPath false (drop (length (parts other)) (parts self)))
  else None.

(** [self / other] *)
Definition joinpath (self other : Path) : Path :=
  if absolute other then other
  else mkPath (absolute self) (parts self ++ parts other).

(** [self.parent] *)
Definition parent (self : Path) : Path :=
  mkPath (absolute self) (take (length (parts self) - 1) (parts self)).

(** The requests made to the file system. *)
Inductive fs_call :=
| Mkdir (directory : Path)
| Copy2 (source destination : Path).

(** Lines 45 to 47: [directory.mkdir(parents=True, exist_ok=True)] *)
Definition ensure_directory_exists (directory : Path) : list fs_call :=
  [Mkdir directory].

(** Lines 50 to 55: the requests of [copy_video_with_structure], or
    [None] for the [ValueError] of [relative_to]. *)
Definition copy_video_with_structure (source_file source_root destination_root : Path)
  : option (list fs_call) :=
  relative_path ← relative_to source_file source_root;
  let destination_file := joinpath destination_root relative_path in
  Some (ensure_directory_exists (parent destination_file)
        ++ [Copy2 source_file destination_file]).

(** ** Listing the videos of the repository (load_dataset.py) *)

Module LoadDataset.

Definition FILE_EXT : string := ".mp4".

(** [s.split(sep)] for a separator of one character. *)
Fixpoint split (sep : ascii) (s : string) : list string :=
  match s with
  | EmptyString => [EmptyString]
  | String c s' =>
      if Ascii.eqb c sep then EmptyString :: split sep s'
      else match split sep s' with
           | part :: rest => String c part :: rest
           | [] => [String c EmptyString]
           end
  end.

(** [by_class.setdefault(cls, []).append(f)] on a dictionary in the
    order of insertion of its keys. *)
Fixpoint setdefault_append (cls f : string) (by_class : list (string * list string))
  : list (string * list string) :=
  match by_class with
  | [] => [(cls, [f])]
  | (key, videos) :: others =>
      if String.eqb key cls then (key, videos ++ [f]) :: others
      else (key, videos) :: setdefault_append cls f others
  end.

(** Lines 30 to 37: the body of [for f in all_files]. *)
Definition collect_step (by_class : list (string * list string)) (f : string)
  : list (string * list string) :=
  if negb (endswith f FILE_EXT) then by_class
  else
    let parts := split "/" f in
    if (length parts <? 2)%nat then by_class
    else
      match parts with
      | cls :: _ => setdefault_append cls f by_class
      | [] => by_class
      end.

(** [collect_videos], given the listing of the repository. *)
Definition collect_videos (all_files : list string)
  : list (string * list string) * list string :=
  (foldl collect_step [] all_files, all_files).

(** Whether the character occurs in the string. *)
Fixpoint occurs (c : ascii) (s : string) : bool :=
  match s with
  | EmptyString => false
  | String c' s' => Ascii.eqb c' c || occurs c s'
  end.

(** The class that the loop files [f] under, if any. *)
Definition class_of (f : string) : option string :=
  if endswith f FILE_EXT then
    match split "/" f with
    | cls :: _ :: _ => Some cls
    | _ => None
    end
  else None.

End LoadDataset.

(** ** Deleting a folder of the repository (delete_folder.py) *)

Module DeleteFolder.

Definition FOLDER : string := "knee_circles".
Definition DRY_RUN : bool := false.

(** [s.startswith(prefix)] *)
Definition startswith (s prefix : string) : bool := String.prefix prefix s.

(** What [main] prints and requests, in order. *)
Inductive event :=
| PrintNoToken
| PrintScanning
| PrintNoFiles
| PrintFound (count : nat)
| PrintFile (f : string)
| PrintDryRun
| CallDeleteFile (path_in_repo : string)
| PrintDeleted (f : string)
| PrintError (f : string)
| PrintDone.

Section Main.
(** The repository as the API sees it; [delete_file] gives the new
    state and whether it raised. *)
Variable Repo : Type.
Variable delete_file : string → Repo → Repo * bool.

(** Lines 49 to 54: the deletion loop. *)
Fixpoint delete_all (to_delete : list string) (repo : Repo) : list event * Repo :=
  match to_delete with
  | [] => ([], repo)
  | f :: rest =>
      let '(repo', raised) := delete_file f repo in
      let '(events, repo'') := delete_all rest repo' in
      (CallDeleteFile f :: (if raised : bool then PrintError f else PrintDeleted f) :: events,
       repo'')
  end.

(** [main], given the value of [HF_TOKEN] and the listing of the
    repository. *)
Definition main (token : option string) (all_files : list string) (repo : Repo)
  : list event * Repo :=
  match token with
  | None | Some EmptyString => ([PrintNoToken], repo)
  | Some _ =>
      let to_delete := filter (λ f, startswith f (FOLDER +:+ "/") = true) all_files in
      match to_delete with
      | [] => ([PrintScanning; PrintNoFiles], repo)
      | _ =>
          let listing := PrintScanning :: PrintFound (length to_delete)
                         :: (PrintFile <$> to_delete) in
          if DRY_RUN then (listing ++ [PrintDryRun], repo)
          else
            let '(events, repo') := delete_all to_delete repo in
            (listing ++ events ++ [PrintDone], repo')
      end
  end.

End Main.

(** The request events of a run, in order. *)
Definition deletions (events : list event) : list string :=
  omap (λ e, match e with CallDeleteFile f => Some f | _ => None end) events.

End DeleteFolder.

(** ** Data of the further examples *)

(** A 1280x720 file of which only the first frame decodes. *)
Definition single_frame : @VideoCapture row_images :=
  {| isOpened := true;
     CAP_PROP_FRAME_WIDTH := 1280;
     CAP_PROP_FRAME_HEIGHT := 720;
     CAP_PROP_FRAME_COUNT := 1;
     read_at := λ i, if i =? 0 then Some (row_frame [100; 40; 160; 90]) else None |}.

(** Metrics that sit on every threshold. *)
Definition on_the_thresholds : Metrics :=
  mkMetrics (Some 640) (Some 360) (Some (of_int 35)) (Some (of_int 50))
            (Some true) (Some true) (Some 19) (Some 6)
            (Some lit_0_3) (Some lit_0_01) (Some lit_0_01).

(** The reasons of the scenario with four failed checks, in order. *)
Definition four_reasons : list string :=
  ["low_resolution"; "too_dark"; "blurry"; "insufficient_motion"].



(** * Properties *)

(** ** Stats dictionaries *)

Lemma add_to_int key n k stats :
  stats !! key = Some (PyInt n) →
  add_to key (PyInt k) stats = Some (tt, <[key := PyInt (n + k)]> stats).
Proof. intros Hn. unfold add_to. rewrite Hn. reflexivity. Qed.

Lemma add_to_int_inv key k stats u stats' :
  add_to key (PyInt k) stats = Some (u, stats') →
  ∃ n, stats !! key = Some (PyInt n) ∧ stats' = <[key := PyInt (n + k)]> stats.
Proof.
  unfold add_to. destruct (stats !! key) as [[s|n]|] eqn:Hk; simpl; try discriminate.
  intros [= <- <-]. eauto.
Qed.

Lemma incr_inv key stats u stats' :
  incr key stats = Some (u, stats') →
  stats' = bump stats key ∧ ∃ n, stats !! key = Some (PyInt n).
Proof.
  intros (n & Hn & ->)%add_to_int_inv. unfold bump. rewrite Hn. eauto.
Qed.

Lemma incr_ok cols key stats :
  ints_at cols stats → key ∈ cols → incr key stats = Some (tt, bump stats key).
Proof.
  intros Hint Hin. destruct (Hint key Hin) as [n Hn].
  unfold incr, bump. rewrite (add_to_int _ n) by done. by rewrite Hn.
Qed.

Lemma lookup_bump_ne stats key key' :
  key ≠ key' → bump stats key !! key' = stats !! key'.
Proof.
  intros Hne. unfold bump.
  destruct (stats !! key) as [[s|n]|]; [done | by rewrite lookup_insert_ne | done].
Qed.

Lemma lookup_bump_eq stats key n :
  stats !! key = Some (PyInt n) → bump stats key !! key = Some (PyInt (n + 1)).
Proof. intros Hn. unfold bump. rewrite Hn. apply lookup_insert_eq. Qed.

Lemma ints_at_bump cols stats key :
  ints_at cols stats → ints_at cols (bump stats key).
Proof.
  intros Hint k Hk. destruct (Hint k Hk) as [n Hn].
  destruct (decide (key = k)) as [->|Hne].
  - exists (n + 1). by apply lookup_bump_eq.
  - exists n. by rewrite lookup_bump_ne.
Qed.

(** ** The evaluator, case by case *)

Lemma bind_StatsM_Some {A B} (m : StatsM A) (f : A → StatsM B) stats x stats' :
  m stats = Some (x, stats') → (m ≫= f) stats = f x stats'.
Proof. intros Hm. unfold mbind, StatsM_bind. by rewrite Hm. Qed.

Lemma bind_StatsM_inv {A B} (m : StatsM A) (f : A → StatsM B) stats r :
  (m ≫= f) stats = Some r → ∃ x stats', m stats = Some (x, stats') ∧ f x stats' = Some r.
Proof.
  unfold mbind, StatsM_bind. destruct (m stats) as [[x stats']|]; [eauto | discriminate].
Qed.

Ltac invert_run :=
  repeat match goal with
  | H : context [if ?c then _ else _] |- _ => destruct c
  end;
  repeat match goal with
  | H : (_ ≫= _) _ = Some _ |- _ => apply bind_StatsM_inv in H as (? & ? & ? & H)
  | H : incr _ _ = Some _ |- _ => apply incr_inv in H as [-> [? H]]
  | H : mret _ _ = Some _ |- _ => unfold mret, StatsM_ret in H
  | H : Some _ = Some _ |- _ => progress simplify_eq
  | H : (let '(_, _) := ?x in _) _ = Some _ |- _ => destruct x
  end.

Lemma evaluate_video_acceptance_inv metrics issues stats accepted reasons stats' :
  evaluate_video_acceptance metrics issues stats = Some (accepted, reasons, stats') →
  reasons = reasons_of metrics issues
  ∧ accepted = bool_decide (reasons = [])
  ∧ stats' = foldl bump stats (counter_of <$> reasons)
  ∧ ints_at (counter_of <$> reasons) stats.
Proof.
  unfold evaluate_video_acceptance, reasons_of, is_corrupted, low_resolution,
    too_dark, too_bright, blurry, insufficient_motion.
  intros Hrun. invert_run.
  all: rewrite ?lookup_bump_ne in * by done.
  all: split_and!; [done..|].
  all: intros key Hin; cbn in Hin.
  all: repeat (apply elem_of_cons in Hin as [->|Hin]; [by eauto|]).
  all: by apply elem_of_nil in Hin.
Qed.

Ltac elem_here := repeat first [apply list_elem_of_here | apply list_elem_of_further].

Lemma evaluate_video_acceptance_total metrics issues stats :
  ints_at reason_counters stats →
  is_Some (evaluate_video_acceptance metrics issues stats).
Proof.
  intros Hint. unfold evaluate_video_acceptance.
  repeat match goal with
  | |- context [if ?c then _ else _] => destruct c
  end.
  all: unfold mbind, StatsM_bind, mret, StatsM_ret.
  all: repeat (erewrite (incr_ok reason_counters);
               [cbn beta iota | eauto using ints_at_bump | elem_here]).
  all: eauto.
Qed.

Lemma evaluate_video_acceptance_run metrics issues stats :
  ints_at reason_counters stats →
  evaluate_video_acceptance metrics issues stats =
    Some (bool_decide (reasons_of metrics issues = []),
          reasons_of metrics issues,
          foldl bump stats (counter_of <$> reasons_of metrics issues)).
Proof.
  intros Hint.
  destruct (evaluate_video_acceptance_total metrics issues stats Hint)
    as [[[accepted reasons] stats'] Hrun].
  destruct (evaluate_video_acceptance_inv _ _ _ _ _ _ Hrun) as (-> & -> & -> & _).
  exact Hrun.
Qed.

(** ** The sampling loop *)

Section Sampling.
Context `{Vision}.
Implicit Types (cap : VideoCapture) (st : LoopState).

Lemma loop_body_index cap flag stride st :
  (loop_body cap flag stride st).(frame_index) = st.(frame_index) + stride.
Proof.
  unfold loop_body. destruct (read_at cap _); [|done].
  destruct flag; [destruct (prev_gray_for_motion st)|]; done.
Qed.

Lemma loop_body_samples cap flag stride st :
  (loop_body cap flag stride st).(samples_collected)
  = st.(samples_collected) + decoded cap [st.(frame_index)].
Proof.
  unfold loop_body, decoded. rewrite filter_cons, filter_nil.
  destruct (read_at cap _) as [frame|]; simpl.
  - destruct flag; [destruct (prev_gray_for_motion st)|]; done.
  - lia.
Qed.

Lemma loop_body_calls cap flag stride st :
  (loop_body cap flag stride st).(calls)
  = st.(calls) ++ [CallSetPos st.(frame_index); CallRead].
Proof.
  unfold loop_body. destruct (read_at cap _); [|done].
  destruct flag; [destruct (prev_gray_for_motion st)|]; done.
Qed.

Lemma positions_app l1 l2 : positions (l1 ++ l2) = positions l1 ++ positions l2.
Proof. apply omap_app. Qed.

Lemma decoded_cons cap i l : decoded cap (i :: l) = decoded cap [i] + decoded cap l.
Proof.
  unfold decoded. rewrite !filter_cons, filter_nil.
  destruct (decide (is_Some (read_at cap i))); simpl; lia.
Qed.

Lemma decoded_range cap l : 0 ≤ decoded cap l ≤ Z.of_nat (length l).
Proof. unfold decoded. pose proof (length_filter (λ i, is_Some (read_at cap i)) l). lia. Qed.

Lemma candidates_seq start stride m :
  candidates start stride m = (λ k : nat, start + Z.of_nat k * stride) <$> seq 0 m.
Proof.
  revert start. induction m as [|m IH]; intros start; [done|].
  simpl. f_equal; [lia|].
  rewrite IH, <- seq_shift, <- list_fmap_compose.
  apply list_fmap_ext. intros _ k _. simpl. lia.
Qed.

Lemma sampling_loop_stop fuel cap flag N S fc st :
  loop_cond N S fc st = false →
  sampling_loop fuel cap flag N S fc st = Some st.
Proof. intros Hc. destruct fuel; simpl; by rewrite Hc. Qed.

(** From any state, the loop stops within [n] iterations when the
    index is within [n] of the bound. *)
Lemma sampling_loop_from cap flag N S fc (n : nat) st :
  1 ≤ S →
  index_bound N S fc - st.(frame_index) ≤ Z.of_nat n →
  st.(samples_collected) ≤ N →
  ∃ (m : nat) st',
    (m ≤ n)%nat
    ∧ (∀ fuel, (m ≤ fuel)%nat → sampling_loop fuel cap flag N S fc st = Some st')
    ∧ positions st'.(calls)
      = positions st.(calls) ++ candidates st.(frame_index) S m
    ∧ st'.(frame_index) = st.(frame_index) + Z.of_nat m * S
    ∧ st'.(samples_collected)
      = st.(samples_collected) + decoded cap (candidates st.(frame_index) S m)
    ∧ st'.(samples_collected) ≤ N
    ∧ loop_cond N S fc st' = false
    ∧ (∀ k, (k < m)%nat →
         st.(frame_index) + Z.of_nat k * S < index_bound N S fc
         ∧ st.(samples_collected) + decoded cap (candidates st.(frame_index) S k) < N).
Proof.
  intros HS. revert st. induction n as [|n IH]; intros st Hn Hle.
  all: destruct (loop_cond N S fc st) eqn:Hc.
  2,4: exists 0%nat, st; split_and!;
         [lia | intros; by apply sampling_loop_stop | simpl; by rewrite app_nil_r
         | simpl; lia | unfold decoded; simpl; lia | done | done | intros; lia].
  - unfold loop_cond, index_bound in *.
    apply andb_true_iff in Hc as [_ Hc%Z.ltb_lt]. lia.
  - pose proof Hc as Hc'. unfold loop_cond in Hc'. fold (index_bound N S fc) in Hc'.
    apply andb_true_iff in Hc' as [Hs%Z.ltb_lt Hi%Z.ltb_lt].
    set (st1 := loop_body cap flag S st).
    destruct (IH st1) as (m & st' & Hm & Hrun & Hpos & Hidx & Hsam & HleN & Hstop & Hcont).
    { unfold st1. rewrite loop_body_index. lia. }
    { unfold st1. rewrite loop_body_samples.
      pose proof (decoded_range cap [frame_index st]). simpl in *. lia. }
    unfold st1 in Hpos, Hidx, Hsam, Hcont.
    rewrite loop_body_index in Hpos, Hidx, Hsam, Hcont.
    rewrite loop_body_samples in Hsam, Hcont.
    rewrite loop_body_calls, positions_app in Hpos.
    exists (Datatypes.S m), st'. split_and!.
    + lia.
    + intros [|fuel] Hfuel; [lia|]. simpl. rewrite Hc. apply Hrun. lia.
    + rewrite Hpos. simpl. by rewrite <- app_assoc.
    + lia.
    + simpl. rewrite (decoded_cons cap _ (candidates _ _ _)). lia.
    + done.
    + done.
    + intros [|k] Hk.
      * unfold decoded. simpl. lia.
      * destruct (Hcont k) as [Hb Hd]; [lia|]. simpl.
        rewrite (decoded_cons cap _ (candidates _ _ _)). lia.
Qed.

(** With the stride of the module, [analysis_fuel] iterations are enough. *)
Lemma sampling_loop_enough cap flag fc st :
  st.(frame_index) = 0 → st.(samples_collected) = 0 →
  is_Some (sampling_loop
             (Z.to_nat (index_bound NUM_SAMPLED_FRAMES FRAME_STRIDE fc))
             cap flag NUM_SAMPLED_FRAMES FRAME_STRIDE fc st).
Proof.
  intros Hi Hs.
  destruct (sampling_loop_from cap flag NUM_SAMPLED_FRAMES FRAME_STRIDE fc
              (Z.to_nat (index_bound NUM_SAMPLED_FRAMES FRAME_STRIDE fc)) st)
    as (m & st' & Hm & Hrun & _).
  - unfold FRAME_STRIDE. lia.
  - rewrite Hi. unfold index_bound, NUM_SAMPLED_FRAMES, FRAME_STRIDE. lia.
  - rewrite Hs. unfold NUM_SAMPLED_FRAMES. lia.
  - exists st'. by apply Hrun.
Qed.

(** The loop only positions the decoder and reads. *)
Lemma sampling_loop_calls fuel cap flag N S fc st st' :
  sampling_loop fuel cap flag N S fc st = Some st' →
  ∃ more, st'.(calls) = st.(calls) ++ more ∧ CallRelease ∉ more.
Proof.
  revert st. induction fuel as [|fuel IH]; intros st; simpl.
  all: destruct (loop_cond N S fc st); try discriminate.
  1,3: intros [= <-]; exists []; rewrite app_nil_r; split; [done | apply not_elem_of_nil].
  intros (more & -> & Hmore)%IH. rewrite loop_body_calls, <- app_assoc.
  eexists; split; [done|].
  rewrite elem_of_app, !elem_of_cons. intros [[?|[?|?%elem_of_nil]]|?]; done.
Qed.

(** The bound on the index does not help against a stride of zero:
    when the frame at the current index does not decode, the loop
    outlasts any fuel. *)
Lemma sampling_loop_stride_zero fuel cap flag N fc st :
  st.(samples_collected) < N → st.(frame_index) < index_bound N 0 fc →
  cap.(read_at) st.(frame_index) = None →
  sampling_loop fuel cap flag N 0 fc st = None.
Proof.
  revert st. induction fuel as [|fuel IH]; intros st Hs Hi Hread; simpl.
  all: unfold loop_cond; fold (index_bound N 0 fc).
  all: rewrite (proj2 (Z.ltb_lt _ _) Hs), (proj2 (Z.ltb_lt _ _) Hi); simpl.
  - done.
  - apply IH; unfold loop_body; rewrite Hread; simpl; rewrite ?Z.add_0_r; done.
Qed.

End Sampling.

(** ** The acceptance policy *)

Lemma undefined_isnan x : undefined x ↔ isnan (default nan x) = true.
Proof.
  unfold undefined. destruct x as [[]|]; simpl; split; intros; auto.
  all: intuition congruence.
Qed.

Lemma lt_not_nan x y : lt x y = true → isnan x = false.
Proof. by destruct x. Qed.

Lemma is_corrupted_true metrics issues :
  is_corrupted metrics issues = true ↔
  "corrupted_file" ∈ issues
  ∨ undefined metrics.(mean_brightness) ∨ undefined metrics.(sharpness_score).
Proof.
  unfold is_corrupted. rewrite !orb_true_iff, bool_decide_eq_true, !undefined_isnan.
  tauto.
Qed.

Lemma elem_of_if_singleton (c : bool) (x reason : string) :
  reason ∈ (if c then [x] else []) ↔ c = true ∧ reason = x.
Proof.
  destruct c; [rewrite list_elem_of_singleton | rewrite elem_of_nil]; intuition congruence.
Qed.

Lemma elem_of_reasons_of metrics issues reason :
  reason ∈ reasons_of metrics issues ↔
  (is_corrupted metrics issues = true ∧ reason = "corrupted_file")
  ∨ (is_corrupted metrics issues = false ∧
     ((low_resolution metrics = true ∧ reason = "low_resolution")
      ∨ (too_dark metrics = true ∧ reason = "too_dark")
      ∨ (too_dark metrics = false ∧ too_bright metrics = true ∧ reason = "too_bright")
      ∨ (blurry metrics = true ∧ reason = "blurry")
      ∨ (insufficient_motion metrics = true ∧ reason = "insufficient_motion"))).
Proof.
  unfold reasons_of. destruct (is_corrupted metrics issues).
  { rewrite list_elem_of_singleton. intuition congruence. }
  rewrite !elem_of_app, !elem_of_if_singleton.
  destruct (too_dark metrics).
  - rewrite list_elem_of_singleton. intuition congruence.
  - rewrite elem_of_if_singleton. intuition congruence.
Qed.

Lemma NoDup_reasons_of metrics issues :
  NoDup (counter_of <$> reasons_of metrics issues).
Proof.
  unfold reasons_of.
  destruct (is_corrupted metrics issues), (low_resolution metrics),
    (too_dark metrics), (too_bright metrics), (blurry metrics),
    (insufficient_motion metrics).
  all: by apply (bool_decide_unpack _); vm_compute.
Qed.

Lemma foldl_bump_notin stats keys key :
  key ∉ keys → foldl bump stats keys !! key = stats !! key.
Proof.
  revert stats. induction keys as [|k keys IH]; intros stats Hnot; [done|].
  apply not_elem_of_cons in Hnot as [Hne Hnot]. simpl.
  rewrite IH by done. by apply lookup_bump_ne.
Qed.

Lemma foldl_bump_in stats keys key n :
  NoDup keys → key ∈ keys → stats !! key = Some (PyInt n) →
  foldl bump stats keys !! key = Some (PyInt (n + 1)).
Proof.
  revert stats. induction keys as [|k keys IH]; intros stats Hnd Hin Hn.
  { by apply elem_of_nil in Hin. }
  apply NoDup_cons in Hnd as [Hk Hnd]. simpl.
  destruct (decide (key = k)) as [->|Hne].
  - rewrite foldl_bump_notin by done. by apply lookup_bump_eq.
  - apply elem_of_cons in Hin as [?|Hin]; [done|].
    apply IH; [done..|]. by rewrite lookup_bump_ne.
Qed.

(** C1. When ["corrupted_file"] is among the issues, or the mean
    brightness or the sharpness score is undefined, the evaluator
    rejects with exactly the reason ["corrupted_file"]; the only
    counter it touches is [corrupted_files], so no later check adds
    anything. *)
Theorem corrupted_file_rejects_alone metrics issues stats n :
  "corrupted_file" ∈ issues
  ∨ undefined metrics.(mean_brightness) ∨ undefined metrics.(sharpness_score) →
  stats !! "corrupted_files" = Some (PyInt n) →
  evaluate_video_acceptance metrics issues stats
  = Some (false, ["corrupted_file"], <["corrupted_files" := PyInt (n + 1)]> stats).
Proof.
  intros Hc%is_corrupted_true Hn. unfold is_corrupted in Hc.
  unfold evaluate_video_acceptance. rewrite Hc.
  unfold mbind, StatsM_bind, incr. by rewrite (add_to_int _ n).
Qed.

Lemma corrupted_file_rejects_alone_witness :
  evaluate_video_acceptance empty_metrics ["corrupted_file"] (default_stats "squat")
  = Some (false, ["corrupted_file"],
          <["corrupted_files" := PyInt (0 + 1)]> (default_stats "squat")).
Proof.
  apply (corrupted_file_rejects_alone empty_metrics ["corrupted_file"]
           (default_stats "squat") 0).
  - left. apply list_elem_of_here.
  - reflexivity.
Defined.

(** C2. Off the corrupted-file path, a video that is too small, too
    dark, blurry and without motion although motion is required is
    rejected with the four reasons in the order of the checks. *)
Theorem all_checks_fail_in_order metrics issues stats :
  "corrupted_file" ∉ issues →
  default 0 metrics.(width) < 640 ∨ default 0 metrics.(height) < 360 →
  lt (default nan metrics.(mean_brightness)) (of_int 35) = true →
  lt (default nan metrics.(sharpness_score)) (of_int 50) = true →
  default false metrics.(motion_flag) = true →
  default false metrics.(motion_detected) = false →
  ints_at reason_counters stats →
  ∃ stats',
    evaluate_video_acceptance metrics issues stats
    = Some (false, ["low_resolution"; "too_dark"; "blurry"; "insufficient_motion"],
            stats').
Proof.
  intros Hiss Hres Hdark Hblur Hflag Hdet Hint.
  rewrite (evaluate_video_acceptance_run _ _ _ Hint).
  assert (reasons_of metrics issues
          = ["low_resolution"; "too_dark"; "blurry"; "insufficient_motion"]) as ->.
  { unfold reasons_of, is_corrupted, low_resolution, too_dark, blurry,
      insufficient_motion, MIN_FRAME_WIDTH, MIN_FRAME_HEIGHT, MIN_BRIGHTNESS,
      MIN_SHARPNESS_SCORE.
    rewrite (bool_decide_eq_false_2 _ Hiss), (lt_not_nan _ _ Hdark),
      (lt_not_nan _ _ Hblur), Hdark, Hblur, Hflag, Hdet. simpl.
    replace (_ || _) with true; [done|].
    symmetry. apply orb_true_iff. rewrite !Z.ltb_lt. done. }
  eauto.
Qed.

Lemma all_checks_fail_in_order_witness :
  ∃ stats',
    evaluate_video_acceptance small_dark_blurry_still [] (default_stats "squat")
    = Some (false, ["low_resolution"; "too_dark"; "blurry"; "insufficient_motion"],
            stats').
Proof.
  apply (all_checks_fail_in_order small_dark_blurry_still [] (default_stats "squat")).
  - apply not_elem_of_nil.
  - left. simpl. lia.
  - reflexivity.
  - reflexivity.
  - reflexivity.
  - reflexivity.
  - intros key Hkey. unfold reason_counters in Hkey.
    repeat (apply elem_of_cons in Hkey as [->|Hkey]; [by exists 0|]).
    by apply elem_of_nil in Hkey.
Defined.

(** C3. Whenever the evaluator returns, its verdict is [true] exactly
    when its list of reasons is empty; and it returns on every stats
    dictionary that holds an int under each reason counter. *)
Theorem accepted_iff_no_reasons metrics issues stats :
  match evaluate_video_acceptance metrics issues stats with
  | Some (accepted, reasons, _) => accepted = true ↔ reasons = []
  | None => ¬ ints_at reason_counters stats
  end.
Proof.
  destruct (evaluate_video_acceptance metrics issues stats)
    as [[[accepted reasons] stats']|] eqn:Hrun.
  - apply evaluate_video_acceptance_inv in Hrun as (_ & -> & _).
    apply bool_decide_eq_true.
  - intros Hint. apply (evaluate_video_acceptance_total metrics issues) in Hint.
    rewrite Hrun in Hint. by destruct Hint.
Qed.

(** C9. The reasons never hold both ["too_dark"] and ["too_bright"]. *)
Theorem dark_and_bright_exclusive metrics issues stats :
  match evaluate_video_acceptance metrics issues stats with
  | Some (_, reasons, _) => ¬ ("too_dark" ∈ reasons ∧ "too_bright" ∈ reasons)
  | None => ¬ ints_at reason_counters stats
  end.
Proof.
  destruct (evaluate_video_acceptance metrics issues stats)
    as [[[accepted reasons] stats']|] eqn:Hrun.
  - apply evaluate_video_acceptance_inv in Hrun as (Hr & _). subst reasons.
    rewrite !elem_of_reasons_of.
    intros [[[_ [=]]|(_ & [[_ [=]]|[[Hd _]|[(_ & _ & [=])|[[_ [=]]|[_ [=]]]]]])]
            [[_ [=]]|(_ & [[_ [=]]|[[_ [=]]|[(Hd' & _)|[[_ [=]]|[_ [=]]]]]])]].
    congruence.
  - intros Hint. apply (evaluate_video_acceptance_total metrics issues) in Hint.
    rewrite Hrun in Hint. by destruct Hint.
Qed.

(** C7. Each reason in the returned list has its counter raised by
    exactly one, and every other entry of the stats dictionary is as
    it was before the call. *)
Theorem reasons_counted_once metrics issues stats :
  match evaluate_video_acceptance metrics issues stats with
  | Some (_, reasons, stats') =>
      (∀ reason, reason ∈ reasons →
         ∃ n, stats !! counter_of reason = Some (PyInt n)
              ∧ stats' !! counter_of reason = Some (PyInt (n + 1)))
      ∧ (∀ key, key ∉ counter_of <$> reasons → stats' !! key = stats !! key)
  | None => ¬ ints_at reason_counters stats
  end.
Proof.
  destruct (evaluate_video_acceptance metrics issues stats)
    as [[[accepted reasons] stats']|] eqn:Hrun.
  - apply evaluate_video_acceptance_inv in Hrun as (-> & _ & -> & Hint). split.
    + intros reason Hin.
      assert (counter_of reason ∈ counter_of <$> reasons_of metrics issues) as Hkey
        by by apply list_elem_of_fmap_2.
      destruct (Hint _ Hkey) as [n Hn]. exists n. split; [done|].
      apply foldl_bump_in; [apply NoDup_reasons_of | done..].
    + intros key Hkey. by apply foldl_bump_notin.
  - intros Hint. apply (evaluate_video_acceptance_total metrics issues) in Hint.
    rewrite Hrun in Hint. by destruct Hint.
Qed.

(** ** The analyzer *)

Section Analysis.
Context `{Vision}.
Variable MOTION_FLAGS : gmap string bool.

Lemma analyze_video_quality_inv fuel (cap : VideoCapture) N S name metrics issues trace :
  analyze_video_quality MOTION_FLAGS fuel cap N S name = Some (metrics, issues, trace) →
  (cap.(isOpened) = false
   ∧ metrics = empty_metrics ∧ issues = ["corrupted_file"] ∧ trace = [CallIsOpened])
  ∨ (cap.(isOpened) = true
     ∧ ∃ st0 st,
         positions (calls st0) = [] ∧ (CallRelease ∉ calls st0)
         ∧ st0.(frame_index) = 0 ∧ st0.(samples_collected) = 0
         ∧ sampling_loop fuel cap (default false (MOTION_FLAGS !! name)) N S
             cap.(CAP_PROP_FRAME_COUNT) st0 = Some st
         ∧ trace = calls st ++ [CallRelease]
         ∧ metrics.(motion_flag) = Some (default false (MOTION_FLAGS !! name))
         ∧ metrics.(width) = Some cap.(CAP_PROP_FRAME_WIDTH)
         ∧ metrics.(height) = Some cap.(CAP_PROP_FRAME_HEIGHT)
         ∧ (st.(samples_collected) = 0 → issues = ["corrupted_file"])).
Proof.
  unfold analyze_video_quality. destruct (isOpened cap); cbn [negb].
  2: { intros [= <- <- <-]. by left. }
  intros Hrun. right. split; [done|].
  match type of Hrun with
  | context [sampling_loop _ _ _ _ _ _ ?st0] =>
      exists st0; destruct (sampling_loop fuel cap _ N S _ st0) as [st|] eqn:Hloop
  end; [|discriminate].
  exists st. cbn [mbind option_bind] in Hrun.
  destruct (_ && _) in Hrun; injection Hrun as <- <- <-; cbn.
  all: split_and!; try done.
  1,3: rewrite !elem_of_cons, elem_of_nil; intuition discriminate.
  all: by intros ->.
Qed.

(** With the stride and the sample count of the module, the analysis
    of a video returns when it is given [analysis_fuel] iterations. *)
Lemma analyze_video_quality_returns (cap : VideoCapture) name :
  is_Some (analyze_video_quality MOTION_FLAGS (analysis_fuel cap) cap
             NUM_SAMPLED_FRAMES FRAME_STRIDE name).
Proof.
  unfold analyze_video_quality, analysis_fuel. destruct (isOpened cap); cbn [negb]; [|eauto].
  match goal with
  | |- context [sampling_loop ?f _ ?flag _ _ ?fc ?st0] =>
      destruct (sampling_loop_enough cap flag fc st0) as [st Hst]; [done..|];
      unfold index_bound in Hst; rewrite Hst
  end.
  cbn [mbind option_bind]. destruct (_ && _); eauto.
Qed.

(** The exit after the sampling loop.  When the decoder opened the
    file, the last call made on it before [analyze_video_quality]
    returns is [release], and it is the only [release]. *)
Lemma released_once_opened fuel (cap : VideoCapture) N S name metrics issues trace :
  cap.(isOpened) = true →
  analyze_video_quality MOTION_FLAGS fuel cap N S name = Some (metrics, issues, trace) →
  released trace
  ∧ ∃ before, trace = before ++ [CallRelease] ∧ CallRelease ∉ before.
Proof.
  intros Hopen [(Hclosed & _)|(_ & st0 & st & Hrest)]%analyze_video_quality_inv.
  { congruence. }
  destruct Hrest as (_ & Hst0 & _ & _ & Hloop & -> & _).
  apply sampling_loop_calls in Hloop as (more & -> & Hmore).
  split.
  - unfold released. rewrite elem_of_app, list_elem_of_singleton. by right.
  - eexists. split; [done|]. rewrite elem_of_app. tauto.
Qed.

(** C6. For an exercise whose motion flag is false or missing, the
    reasons given for any of its videos never hold
    ["insufficient_motion"], whatever the frames are. *)
Theorem no_motion_check_without_flag fuel (cap : VideoCapture) N S name
    metrics issues trace stats accepted reasons stats' :
  MOTION_FLAGS !! name = Some false ∨ MOTION_FLAGS !! name = None →
  analyze_video_quality MOTION_FLAGS fuel cap N S name = Some (metrics, issues, trace) →
  evaluate_video_acceptance metrics issues stats = Some (accepted, reasons, stats') →
  "insufficient_motion" ∉ reasons.
Proof.
  intros Hflag Hanalysis (-> & _)%evaluate_video_acceptance_inv.
  assert (default false metrics.(motion_flag) = false) as Hoff.
  { apply analyze_video_quality_inv in Hanalysis
      as [(_ & -> & _)|(_ & st0 & st & _ & _ & _ & _ & _ & _ & -> & _)]; [done|].
    by destruct Hflag as [-> | ->]. }
  rewrite elem_of_reasons_of. unfold insufficient_motion. rewrite Hoff, andb_false_r.
  intros [[_ [=]]|(_ & [[_ [=]]|[[_ [=]]|[(_ & _ & [=])|[[_ [=]]|[[=] _]]]]])].
Qed.

(** C5. From index 0 with nothing collected, the sampling loop stops
    after some [m] iterations: it has visited exactly the indices
    [0], [S], ..., [(m-1)S], each of them below the bound and each
    reached with fewer than [N] frames collected; it ends with [N]
    frames collected or with the index at or past the bound; the
    frames collected are the visited indices that decode, and there
    are at most [N] of them. *)
Theorem sampling_loop_terminates (cap : VideoCapture) flag N S fc st :
  0 ≤ N → 1 ≤ S →
  st.(frame_index) = 0 → st.(samples_collected) = 0 → positions st.(calls) = [] →
  ∃ (m : nat) st',
    (∀ fuel, (m ≤ fuel)%nat → sampling_loop fuel cap flag N S fc st = Some st')
    ∧ Z.of_nat m ≤ index_bound N S fc
    ∧ positions st'.(calls) = (λ k : nat, Z.of_nat k * S) <$> seq 0 m
    ∧ (∀ k, (k < m)%nat →
         Z.of_nat k * S < index_bound N S fc
         ∧ decoded cap ((λ j : nat, Z.of_nat j * S) <$> seq 0 k) < N)
    ∧ st'.(frame_index) = Z.of_nat m * S
    ∧ (st'.(samples_collected) = N ∨ index_bound N S fc ≤ st'.(frame_index))
    ∧ st'.(samples_collected) = decoded cap (positions st'.(calls))
    ∧ 0 ≤ st'.(samples_collected) ≤ N.
Proof.
  intros HN HS Hi Hs Hp.
  destruct (sampling_loop_from cap flag N S fc (Z.to_nat (index_bound N S fc)) st)
    as (m & st' & Hm & Hrun & Hpos & Hidx & Hsam & HleN & Hstop & Hcont);
    [done | lia | lia |].
  rewrite Hi, Hs, Hp in *. simpl in Hpos, Hsam, Hidx, Hcont.
  assert (∀ k, candidates 0 S k = (λ j : nat, Z.of_nat j * S) <$> seq 0 k) as Hcand.
  { intros k. rewrite candidates_seq. apply list_fmap_ext. intros; lia. }
  rewrite Hcand in Hpos, Hsam.
  exists m, st'. split_and!.
  - done.
  - unfold index_bound in *. nia.
  - done.
  - intros k Hk. destruct (Hcont k Hk) as [Hb Hd]. rewrite Hcand in Hd. done.
  - done.
  - unfold loop_cond in Hstop. fold (index_bound N S fc) in Hstop.
    apply andb_false_iff in Hstop as [Hc%Z.ltb_ge | Hc%Z.ltb_ge]; [left | right]; lia.
  - by rewrite Hpos.
  - pose proof (decoded_range cap ((λ j : nat, Z.of_nat j * S) <$> seq 0 m)). lia.
  - done.
Qed.

End Analysis.

(** ** Folding a record into the totals *)

Lemma field_int col (row : gmap string pyval) n : row !! col = Some (PyInt n) → field col row = n.
Proof. intros Hn. unfold field. by rewrite Hn. Qed.

Lemma field_sum_app col rows1 rows2 :
  field_sum col (rows1 ++ rows2) = field_sum col rows1 + field_sum col rows2.
Proof. induction rows1 as [|row rows1 IH]; simpl; lia. Qed.

Lemma fold_key_counter ex (totals : gmap string pyval) key a b :
  key ≠ "Exercise" →
  totals !! key = Some (PyInt a) → ex !! key = Some (PyInt b) →
  fold_key ex totals key = Some (<[key := PyInt (a + b)]> totals).
Proof.
  intros Hne Ha Hb. unfold fold_key. rewrite decide_True by done.
  by rewrite Ha, Hb.
Qed.

Lemma fold_key_Exercise ex (totals : gmap string pyval) :
  fold_key ex totals "Exercise" = Some totals.
Proof. unfold fold_key. by rewrite decide_False by tauto. Qed.

Lemma fold_keys_spec ex l (totals : gmap string pyval) :
  NoDup l →
  (∀ key, key ∈ l → key ≠ "Exercise" →
     ∃ a b, totals !! key = Some (PyInt a) ∧ ex !! key = Some (PyInt b)) →
  ∃ totals',
    for_each (fold_key ex) totals l = Some totals'
    ∧ ∀ key, totals' !! key
             = if decide (key ∈ l ∧ key ≠ "Exercise")
               then Some (PyInt (field key totals + field key ex))
               else totals !! key.
Proof.
  revert totals. induction l as [|k l IH]; intros totals Hnd Hints.
  { exists totals. split; [done|]. intros key. rewrite decide_False; [done|].
    rewrite elem_of_nil. tauto. }
  apply NoDup_cons in Hnd as [Hk Hnd]. simpl.
  destruct (decide (k = "Exercise")) as [->|Hne].
  - rewrite fold_key_Exercise. simpl.
    destruct (IH totals Hnd) as (totals' & -> & Hlook).
    { intros key Hin. apply Hints. by right. }
    exists totals'. split; [done|]. intros key. rewrite Hlook.
    apply decide_ext. rewrite elem_of_cons. intuition congruence.
  - destruct (Hints k) as (a & b & Ha & Hb); [by left | done |].
    rewrite (fold_key_counter ex totals k a b) by done. simpl.
    destruct (IH (<[k := PyInt (a + b)]> totals) Hnd) as (totals' & -> & Hlook).
    { intros key Hin Hkey. rewrite lookup_insert_ne by (intros ->; done).
      apply Hints; [by right | done]. }
    exists totals'. split; [done|]. intros key. rewrite Hlook.
    destruct (decide (key = k)) as [->|Hkey].
    + rewrite decide_False by tauto. rewrite decide_True by (split; [by left | done]).
      rewrite lookup_insert_eq. by rewrite (field_int _ _ a), (field_int _ _ b).
    + rewrite lookup_insert_ne by done. unfold field at 1.
      rewrite lookup_insert_ne by done. fold (field key totals).
      apply decide_ext. rewrite elem_of_cons. intuition congruence.
Qed.

Lemma elem_of_keys (d : gmap string pyval) key : key ∈ keys d ↔ is_Some (d !! key).
Proof.
  unfold keys. rewrite list_elem_of_fmap. split.
  - intros [[k v] [-> Hin%elem_of_map_to_list]]. eauto.
  - intros [v Hv]. exists (key, v). split; [done|]. by apply elem_of_map_to_list.
Qed.

Lemma Exercise_not_counter : "Exercise" ∉ counter_columns.
Proof. by apply (bool_decide_unpack _); vm_compute. Qed.

Lemma fold_into_totals_spec (totals ex : gmap string pyval) :
  totals_ok totals → ints_at counter_columns ex →
  ∃ totals',
    fold_into_totals totals ex = Some totals'
    ∧ totals_ok totals'
    ∧ ∀ col, col ∈ counter_columns →
        totals' !! col = Some (PyInt (field col totals + field col ex)).
Proof.
  intros [Hints Hdom] Hex.
  destruct (fold_keys_spec ex (keys totals) totals) as (totals' & Hrun & Hlook).
  { apply NoDup_fst_map_to_list. }
  { intros key Hin%elem_of_keys Hne.
    apply Hdom in Hin. apply elem_of_cons in Hin as [->|Hin]; [done|].
    destruct (Hints key Hin) as [a Ha], (Hex key Hin) as [b Hb]. eauto. }
  assert (∀ col, col ∈ counter_columns →
            totals' !! col = Some (PyInt (field col totals + field col ex))) as Hsum.
  { intros col Hcol. rewrite Hlook, decide_True; [done|]. split.
    - apply elem_of_keys. destruct (Hints col Hcol) as [a Ha]. eauto.
    - intros ->. by apply Exercise_not_counter. }
  exists totals'. split_and!; [done | | done]. split.
  - intros col Hcol. rewrite Hsum by done. eauto.
  - intros key. rewrite Hlook. case_decide as Hcase; [|apply Hdom].
    intros _. apply Hdom, elem_of_keys, Hcase.
Qed.



(** ** Fresh records *)

Lemma default_stats_counter name col :
  col ∈ counter_columns → default_stats name !! col = Some (PyInt 0).
Proof.
  intros Hcol. unfold counter_columns in Hcol.
  repeat (apply elem_of_cons in Hcol as [->|Hcol]; [reflexivity|]).
  by apply elem_of_nil in Hcol.
Qed.

Lemma default_stats_keys name key :
  is_Some (default_stats name !! key) → key ∈ report_columns.
Proof.
  intros Hsome. destruct (decide (key ∈ report_columns)) as [|Hnot]; [done|].
  unfold default_stats in Hsome.
  rewrite not_elem_of_list_to_map_1 in Hsome by exact Hnot.
  by destruct Hsome.
Qed.

Lemma default_stats_row_ok name : row_ok (default_stats name).
Proof.
  split; [by eexists|]. intros col Hcol. exists 0. by apply default_stats_counter.
Qed.

Lemma default_stats_totals_ok name : totals_ok (default_stats name).
Proof.
  split; [apply default_stats_row_ok | apply default_stats_keys].
Qed.

Lemma default_stats_balanced name : balanced (default_stats name).
Proof. by exists 0, 0. Qed.

(** ** The report *)

Lemma select_spec cols (row : gmap string pyval) :
  (∀ col, col ∈ cols → is_Some (row !! col)) →
  ∃ d, select cols row = Some d ∧ ∀ col, col ∈ cols → d !! col = row !! col.
Proof.
  intros Hcols. unfold select.
  assert (∃ cells,
            mapM (λ col, (λ v, (col, v)) <$> row !! col) cols = Some cells
            ∧ ∀ col, col ∈ cols →
                (list_to_map cells : gmap string pyval) !! col = row !! col)
    as (cells & -> & Hcells); [|by eauto].
  induction cols as [|c cols IH].
  { exists []. split; [done|]. by intros col ?%elem_of_nil. }
  destruct IH as (cells & Hmap & Hcells).
  { intros col Hcol. apply Hcols. by right. }
  destruct (Hcols c) as [v Hv]; [by left|].
  exists ((c, v) :: cells). split.
  - apply mapM_Some. constructor; [by rewrite Hv | by apply mapM_Some].
  - intros col Hcol. simpl. destruct (decide (col = c)) as [->|Hne].
    + by rewrite lookup_insert_eq.
    + rewrite lookup_insert_ne by done.
      apply elem_of_cons in Hcol as [?|Hcol]; [done | by apply Hcells].
Qed.

Lemma wrap_int64_range n : int64_min ≤ wrap_int64 n ≤ int64_max.
Proof.
  unfold wrap_int64, int64_min, int64_max.
  pose proof (Z.mod_pos_bound (n + 2 ^ 63) (2 ^ 64)). lia.
Qed.

Lemma wrap_int64_id n : int64_min ≤ n ≤ int64_max → wrap_int64 n = n.
Proof.
  unfold wrap_int64, int64_min, int64_max. intros Hn.
  rewrite Z.mod_small; lia.
Qed.


Lemma column_sum_spec col (df : list (gmap string pyval)) :
  Forall (λ row, ∃ n, row !! col = Some (PyInt n)) df →
  column_sum col df = Some (PyInt (wrap_int64 (field_sum col df))).
Proof.
  intros Hdf. unfold column_sum.
  assert (mapM (λ row : gmap string pyval,
                  match row !! col with Some (PyInt n) => Some n | _ => None end) df
          = Some (field col <$> df)) as ->.
  { apply mapM_Some. induction Hdf as [|row df [n Hn] _ IH]; constructor; [|done].
    by rewrite Hn, (field_int _ _ n). }
  simpl. do 3 f_equal. clear Hdf.
  induction df as [|row df IH]; [done|].
  rewrite fmap_cons. simpl. by f_equal.
Qed.

Lemma total_row_lookup (value : string → pyval) cols col :
  col ∈ cols → col ≠ "Exercise" →
  (list_to_map (("Exercise", PyStr "TOTAL") :: ((λ c, (c, value c)) <$> cols))
     : gmap string pyval) !! col = Some (value col).
Proof.
  intros Hcol Hne. simpl. rewrite lookup_insert_ne by done.
  induction cols as [|c cols IH]; [by apply elem_of_nil in Hcol|].
  simpl. destruct (decide (col = c)) as [->|Hc].
  - by rewrite lookup_insert_eq.
  - rewrite lookup_insert_ne by done.
    apply elem_of_cons in Hcol as [?|Hcol]; [done | by apply IH].
Qed.

Lemma generate_cleaning_report_spec rows (totals : gmap string pyval) :
  rows ≠ [] → Forall row_ok rows →
  ∃ df total_row,
    generate_cleaning_report rows totals = Some (Table (df ++ [total_row]))
    ∧ Forall2 (λ row d : gmap string pyval,
                 ∀ col, col ∈ report_columns → d !! col = row !! col) rows df
    ∧ total_row !! "Exercise" = Some (PyStr "TOTAL")
    ∧ ∀ col, col ∈ counter_columns →
        total_row !! col = Some (PyInt (wrap_int64 (field_sum col rows))).
Proof.
  intros Hne Hrows.
  assert (∃ df, mapM (select report_columns) rows = Some df
                ∧ Forall2 (λ row d : gmap string pyval,
                     ∀ col, col ∈ report_columns → d !! col = row !! col) rows df)
    as (df & Hdf & Hsame).
  { clear Hne. induction Hrows as [|row rows [Hname Hints] _ (df & Hdf & Hsame)].
    { exists []. split; [done | constructor]. }
    destruct (select_spec report_columns row) as (d & Hd & Hcols).
    { intros col [->|Hcol]%elem_of_cons; [done|]. destruct (Hints col Hcol). eauto. }
    exists (d :: df). split; [|by constructor].
    apply mapM_Some. constructor; [done | by apply mapM_Some]. }
  assert (∀ col, col ∈ counter_columns →
            column_sum col df = Some (PyInt (wrap_int64 (field_sum col rows)))) as Hsum.
  { intros col Hcol.
    assert (col ∈ report_columns) as Hrep by by right.
    rewrite column_sum_spec.
    - do 3 f_equal. clear Hdf Hne.
      induction Hsame as [|row d rows df Hrd _ IH]; simpl; [done|].
      inversion Hrows; subst. rewrite IH by done.
      unfold field. by rewrite Hrd.
    - clear Hdf Hne. induction Hsame as [|row d rows df Hrd _ IH]; [constructor|].
      inversion Hrows as [|?? [_ Hints] ?]; subst. constructor; [|by apply IH].
      rewrite Hrd by done. by apply Hints. }
  assert (mapM (λ col, (λ v, (col, v)) <$> column_sum col df) counter_columns
          = Some ((λ col, (col, PyInt (wrap_int64 (field_sum col rows))))
                    <$> counter_columns))
    as Hsums.
  { apply mapM_Some. apply Forall2_fmap_r, Forall_Forall2_diag, Forall_forall.
    intros col Hcol. by rewrite Hsum. }
  eexists df, _. split_and!.
  - unfold generate_cleaning_report. destruct rows; [done|].
    rewrite Hdf. cbn [mbind option_bind]. rewrite Hsums. reflexivity.
  - done.
  - reflexivity.
  - intros col Hcol.
    apply (total_row_lookup (λ c, PyInt (wrap_int64 (field_sum c rows)))
             counter_columns col Hcol).
    intros ->. by apply Exercise_not_counter.
Qed.


(** ** One video, one folder, the whole walk *)

Lemma counter_of_reasons metrics issues key :
  key ∈ counter_of <$> reasons_of metrics issues → key ∈ reason_counters.
Proof.
  intros (reason & -> & Hin)%list_elem_of_fmap.
  apply elem_of_reasons_of in Hin
    as [[_ ->]|(_ & [[_ ->]|[[_ ->]|[(_ & _ & ->)|[[_ ->]|[_ ->]]]]])].
  all: by apply (bool_decide_unpack _); vm_compute.
Qed.

Lemma reason_counters_columns key : key ∈ reason_counters → key ∈ counter_columns.
Proof.
  intros Hkey. unfold reason_counters in Hkey.
  repeat (apply elem_of_cons in Hkey as [->|Hkey];
          [by apply (bool_decide_unpack _); vm_compute|]).
  by apply elem_of_nil in Hkey.
Qed.

Lemma row_ok_reason_counters row : row_ok row → ints_at reason_counters row.
Proof. intros [_ Hints] key Hkey. by apply Hints, reason_counters_columns. Qed.

Lemma row_ok_insert (row : gmap string pyval) key n :
  row_ok row → key ∈ counter_columns → row_ok (<[key := PyInt n]> row).
Proof.
  intros [Hname Hints] Hkey. split.
  - rewrite lookup_insert_ne; [done|]. intros ->. by apply Exercise_not_counter.
  - intros col Hcol. destruct (decide (key = col)) as [->|Hne].
    + rewrite lookup_insert_eq. eauto.
    + rewrite lookup_insert_ne by done. by apply Hints.
Qed.

Lemma row_ok_bump row key : row_ok row → row_ok (bump row key).
Proof.
  intros [Hname Hints]. split; [|by apply ints_at_bump].
  destruct (decide (key = "Exercise")) as [->|Hne].
  - unfold bump. destruct (row !! "Exercise") as [[s|n]|] eqn:Hk; rewrite ?Hk; try done.
    rewrite lookup_insert_eq. eauto.
  - by rewrite lookup_bump_ne.
Qed.

Lemma row_ok_foldl_bump row ks : row_ok row → row_ok (foldl bump row ks).
Proof.
  revert row. induction ks as [|k ks IH]; intros row Hok; [done|].
  simpl. by apply IH, row_ok_bump.
Qed.

Lemma not_reason_counter key :
  key ∈ ["total_videos"; "accepted_videos"; "rejected_videos"] →
  key ∉ reason_counters.
Proof.
  intros Hkey.
  repeat (apply elem_of_cons in Hkey as [->|Hkey];
          [by apply (bool_decide_unpack _); vm_compute|]).
  by apply elem_of_nil in Hkey.
Qed.

Section Cleaning.
Context `{Vision}.
Variable MOTION_FLAGS : gmap string bool.

(** Processing one video adds one to [total_videos] and one to
    either [accepted_videos] or [rejected_videos]. *)
Lemma process_video_step folder st (entry : string * VideoCapture) a r :
  row_ok st.(exercise_stats) →
  st.(exercise_stats) !! "total_videos" = Some (PyInt (a + r)) →
  st.(exercise_stats) !! "accepted_videos" = Some (PyInt a) →
  st.(exercise_stats) !! "rejected_videos" = Some (PyInt r) →
  ∃ st',
    process_video MOTION_FLAGS folder st entry = Some st'
    ∧ row_ok st'.(exercise_stats) ∧ st'.(any_video) = true
    ∧ st'.(exercise_stats) !! "total_videos" = Some (PyInt (a + r + 1))
    ∧ ((st'.(exercise_stats) !! "accepted_videos" = Some (PyInt (a + 1))
        ∧ st'.(exercise_stats) !! "rejected_videos" = Some (PyInt r))
       ∨ (st'.(exercise_stats) !! "accepted_videos" = Some (PyInt a)
          ∧ st'.(exercise_stats) !! "rejected_videos" = Some (PyInt (r + 1)))).
Proof.
  intros Hok Ht Ha Hr. destruct entry as [file cap].
  unfold process_video.
  rewrite (add_to_int _ (a + r)) by done. cbn [mbind option_bind].
  destruct (analyze_video_quality_returns MOTION_FLAGS cap folder)
    as [[[metrics issues] trace] ->]. cbn [mbind option_bind].
  set (stats1 := <["total_videos" := PyInt (a + r + 1)]> (exercise_stats st)).
  assert (row_ok stats1) as Hok1.
  { apply row_ok_insert; [done|]. by apply (bool_decide_unpack _); vm_compute. }
  rewrite (evaluate_video_acceptance_run _ _ _ (row_ok_reason_counters _ Hok1)).
  cbn [mbind option_bind].
  set (ks := counter_of <$> reasons_of metrics issues).
  set (stats2 := foldl bump stats1 ks).
  assert (row_ok stats2) as Hok2 by by apply row_ok_foldl_bump.
  assert (∀ key, key ∈ ["total_videos"; "accepted_videos"; "rejected_videos"] →
            stats2 !! key = stats1 !! key) as Hsame.
  { intros key Hkey. apply foldl_bump_notin.
    intros Hin%counter_of_reasons. by apply (not_reason_counter key). }
  assert (stats2 !! "total_videos" = Some (PyInt (a + r + 1))) as Ht2.
  { rewrite Hsame by elem_here. apply lookup_insert_eq. }
  assert (stats2 !! "accepted_videos" = Some (PyInt a)) as Ha2.
  { rewrite Hsame by elem_here. unfold stats1. by rewrite lookup_insert_ne. }
  assert (stats2 !! "rejected_videos" = Some (PyInt r)) as Hr2.
  { rewrite Hsame by elem_here. unfold stats1. by rewrite lookup_insert_ne. }
  destruct (bool_decide _).
  - rewrite (add_to_int _ a) by done. cbn [mbind option_bind].
    eexists. split; [done|]. cbn [exercise_stats any_video]. split_and!; [|done| |].
    + apply row_ok_insert; [done|]. by apply (bool_decide_unpack _); vm_compute.
    + by rewrite lookup_insert_ne.
    + left. by rewrite lookup_insert_eq, lookup_insert_ne.
  - rewrite (add_to_int _ r) by done. cbn [mbind option_bind].
    eexists. split; [done|]. cbn [exercise_stats any_video]. split_and!; [|done| |].
    + apply row_ok_insert; [done|]. by apply (bool_decide_unpack _); vm_compute.
    + by rewrite lookup_insert_ne.
    + right. by rewrite lookup_insert_eq, lookup_insert_ne.
Qed.

(** Processing one video keeps the record well formed and balanced. *)
Lemma process_video_spec folder st (entry : string * VideoCapture) :
  row_ok st.(exercise_stats) → balanced st.(exercise_stats) →
  ∃ st',
    process_video MOTION_FLAGS folder st entry = Some st'
    ∧ row_ok st'.(exercise_stats) ∧ balanced st'.(exercise_stats)
    ∧ st'.(any_video) = true.
Proof.
  intros Hok (a & r & Ht & Ha & Hr).
  destruct (process_video_step folder st entry a r Hok Ht Ha Hr)
    as (st' & Hrun & Hok' & Hany & Ht' & [[Ha' Hr']|[Ha' Hr']]).
  - exists st'. split_and!; [done..| |done].
    exists (a + 1), r. rewrite Ht', Ha', Hr'. split_and!; [|done..].
    do 2 f_equal. lia.
  - exists st'. split_and!; [done..| |done].
    exists a, (r + 1). rewrite Ht', Ha', Hr'. split_and!; [|done..].
    do 2 f_equal. lia.
Qed.

Lemma process_files_cons folder st entry files :
  process_files MOTION_FLAGS folder st (entry :: files)
  = process_file MOTION_FLAGS folder st entry
      ≫= λ st', process_files MOTION_FLAGS folder st' files.
Proof. reflexivity. Qed.

Lemma process_files_spec folder files st :
  row_ok st.(exercise_stats) → balanced st.(exercise_stats) →
  ∃ st',
    process_files MOTION_FLAGS folder st files = Some st'
    ∧ row_ok st'.(exercise_stats) ∧ balanced st'.(exercise_stats).
Proof.
  revert st. induction files as [|entry files IH]; intros st Hok Hbal.
  { exists st. by split_and!. }
  rewrite process_files_cons. unfold process_file.
  destruct (negb (is_video entry.1)); cbn [mbind option_bind].
  - by apply IH.
  - destruct (process_video_spec folder st entry Hok Hbal)
      as (st1 & -> & Hok1 & Hbal1 & _). cbn [mbind option_bind]. by apply IH.
Qed.

End Cleaning.

Lemma field_sum_balanced rows :
  Forall balanced rows →
  field_sum "total_videos" rows
  = field_sum "accepted_videos" rows + field_sum "rejected_videos" rows.
Proof.
  induction 1 as [|row rows (a & r & Ht & Ha & Hr) _ IH]; simpl; [done|].
  rewrite (field_int _ _ _ Ht), (field_int _ _ _ Ha), (field_int _ _ _ Hr). lia.
Qed.

Lemma run_ok_balanced run : run_ok run → balanced run.(totals).
Proof.
  intros (_ & _ & Hbal & Hsum).
  exists (field_sum "accepted_videos" run.(overall_exercise_stats)),
         (field_sum "rejected_videos" run.(overall_exercise_stats)).
  rewrite <- field_sum_balanced by done.
  split_and!; apply Hsum; elem_here.
Qed.

Lemma run_ok_initial : run_ok (mkRun [] [] [] (default_stats "ALL_EXERCISES")).
Proof.
  split_and!; [apply default_stats_totals_ok | constructor | constructor |].
  intros col Hcol. by apply default_stats_counter.
Qed.

Section Walk.
Context `{Vision}.
Variable MOTION_FLAGS : gmap string bool.

Lemma process_folder_spec run (dir : string * list (string * VideoCapture)) :
  run_ok run →
  ∃ run', process_folder MOTION_FLAGS run dir = Some run' ∧ run_ok run'.
Proof.
  intros Hrun. destruct dir as [folder files]. unfold process_folder.
  destruct (length files =? 0)%nat; [by eauto|].
  destruct (process_files_spec MOTION_FLAGS folder files
              (mkFolder (default_stats folder) false run.(VIDEO_LOG) run.(copied)))
    as (fs & -> & Hok & Hbal);
    [apply default_stats_row_ok | apply default_stats_balanced |].
  cbn [mbind option_bind]. destruct (any_video fs).
  2: { eexists. split; [done|]. exact Hrun. }
  destruct Hrun as (Htot & Hrows & Hbals & Hsum).
  destruct (fold_into_totals_spec run.(totals) fs.(exercise_stats) Htot (proj2 Hok))
    as (totals' & -> & Htot' & Hsum').
  cbn [mbind option_bind]. eexists. split; [done|].
  split_and!; cbn [totals overall_exercise_stats].
  - done.
  - apply Forall_app. split; [done | by constructor].
  - apply Forall_app. split; [done | by constructor].
  - intros col Hcol. rewrite Hsum' by done.
    rewrite (field_int _ _ _ (Hsum col Hcol)), field_sum_app. simpl.
    do 2 f_equal. lia.
Qed.

Lemma walk_spec walk run :
  run_ok run →
  ∃ run', for_each (process_folder MOTION_FLAGS) run walk = Some run' ∧ run_ok run'.
Proof.
  revert run. induction walk as [|dir walk IH]; intros run Hrun.
  { by exists run. }
  destruct (process_folder_spec run dir Hrun) as (run1 & Hstep & Hrun1).
  simpl. rewrite Hstep. cbn [mbind option_bind]. by apply IH.
Qed.

End Walk.


(** ** Aggregation *)




(** The run of [clean_dataset] never raises; it ends in a state whose
    totals are the column sums of its records, and the TOTAL row of
    its report, when there is a record at all, holds the totals
    wrapped around to [int64]. *)
Lemma clean_dataset_ok `{Vision} (MOTION_FLAGS : gmap string bool) walk :
  ∃ run table,
    clean_dataset MOTION_FLAGS walk = Some (run, table)
    ∧ run_ok run
    ∧ ((run.(overall_exercise_stats) = [] ∧ table = NoStats)
       ∨ ∃ df total_row,
           table = Table (df ++ [total_row])
           ∧ ∀ col, col ∈ counter_columns →
               total_row !! col
               = Some (PyInt (wrap_int64 (field col run.(totals))))).
Proof.
  destruct (walk_spec MOTION_FLAGS walk _ run_ok_initial) as (run & Hwalk & Hok).
  unfold clean_dataset. rewrite Hwalk. cbn [mbind option_bind].
  destruct (overall_exercise_stats run) as [|row rows] eqn:Hrows.
  { exists run, NoStats. rewrite Hrows. split_and!; [done..|]. by left. }
  destruct (generate_cleaning_report_spec (row :: rows) run.(totals))
    as (df & total_row & Hrep & _ & _ & Htotal); [done | |].
  { rewrite <- Hrows. apply Hok. }
  rewrite Hrep. cbn [mbind option_bind].
  exists run, (Table (df ++ [total_row])). split_and!; [done..|].
  right. exists df, total_row. split; [done|].
  intros col Hcol. rewrite (Htotal col Hcol).
  destruct Hok as (_ & _ & _ & Hsum).
  rewrite (field_int _ _ _ (Hsum col Hcol)). by rewrite Hrows.
Qed.

(** C10. Processing a video adds one to [total_videos] and one to
    exactly one of [accepted_videos] and [rejected_videos].  Hence,
    whatever files of a folder have been processed so far, the record
    of the folder has [total_videos = accepted_videos +
    rejected_videos]; whatever folders have been walked so far, so has
    every finished record, and so have the totals. *)
Theorem counters_stay_balanced `{Vision} (MOTION_FLAGS : gmap string bool) :
  (∀ folder st entry a r,
     row_ok st.(exercise_stats) →
     st.(exercise_stats) !! "total_videos" = Some (PyInt (a + r)) →
     st.(exercise_stats) !! "accepted_videos" = Some (PyInt a) →
     st.(exercise_stats) !! "rejected_videos" = Some (PyInt r) →
     ∃ st',
       process_video MOTION_FLAGS folder st entry = Some st'
       ∧ st'.(exercise_stats) !! "total_videos" = Some (PyInt (a + r + 1))
       ∧ ((st'.(exercise_stats) !! "accepted_videos" = Some (PyInt (a + 1))
           ∧ st'.(exercise_stats) !! "rejected_videos" = Some (PyInt r))
          ∨ (st'.(exercise_stats) !! "accepted_videos" = Some (PyInt a)
             ∧ st'.(exercise_stats) !! "rejected_videos" = Some (PyInt (r + 1)))))
  ∧ (∀ folder files log copies,
     ∃ fs,
       process_files MOTION_FLAGS folder
         (mkFolder (default_stats folder) false log copies) files = Some fs
       ∧ balanced fs.(exercise_stats))
  ∧ (∀ walk,
       ∃ run table,
         clean_dataset MOTION_FLAGS walk = Some (run, table)
         ∧ Forall balanced run.(overall_exercise_stats)
         ∧ balanced run.(totals)).
Proof.
  split_and!.
  - intros folder st entry a r Hok Ht Ha Hr.
    destruct (process_video_step MOTION_FLAGS folder st entry a r Hok Ht Ha Hr)
      as (st' & Hrun & _ & _ & Hrest).
    by exists st'.
  - intros folder files log copies.
    destruct (process_files_spec MOTION_FLAGS folder files
                (mkFolder (default_stats folder) false log copies))
      as (fs & Hrun & _ & Hbal);
      [apply default_stats_row_ok | apply default_stats_balanced |].
    by exists fs.
  - intros walk.
    destruct (clean_dataset_ok MOTION_FLAGS walk) as (run & table & Hrun & Hok & _).
    exists run, table. split_and!; [done | apply Hok | by apply run_ok_balanced].
Qed.

(** ** The analyzer on the example clips *)

(** C4, at the input where it fails.  On a file that the decoder
    cannot open, [analyze_video_quality] takes the early exit: the
    only call made on the handle is [isOpened], and the function
    returns without a [release], which only the exit after the
    sampling loop makes. *)
Theorem early_exit_skips_release :
  analyze_video_quality (H := row_images) squat_flags 30 unopened 20 15 "squat"
  = Some (empty_metrics, ["corrupted_file"], [CallIsOpened])
  ∧ ¬ released [CallIsOpened].
Proof.
  split; [reflexivity|].
  unfold released. rewrite list_elem_of_singleton. discriminate.
Qed.

Example released_once_opened_dark_clip :
  released dark_clip_trace
  ∧ ∃ before, dark_clip_trace = before ++ [CallRelease] ∧ CallRelease ∉ before.
Proof.
  apply (released_once_opened (H := row_images) squat_flags 30 dark_clip 20 15 "plank"
           dark_clip_metrics [] dark_clip_trace).
  - reflexivity.
  - reflexivity.
Qed.

Lemma no_motion_check_without_flag_witness :
  "insufficient_motion" ∉ ["low_resolution"; "too_dark"; "blurry"].
Proof.
  apply (no_motion_check_without_flag (H := row_images) squat_flags 30 dark_clip 20 15
           "plank" dark_clip_metrics [] dark_clip_trace (default_stats "plank") false
           ["low_resolution"; "too_dark"; "blurry"]
           (foldl bump (default_stats "plank") ["low_resolution"; "too_dark"; "blurry"])).
  - right. reflexivity.
  - reflexivity.
  - reflexivity.
Defined.

Lemma sampling_loop_terminates_witness :
  ∃ (m : nat) st',
    (∀ fuel, (m ≤ fuel)%nat →
       sampling_loop (H := row_images) fuel dark_clip true 20 15 40 first_state = Some st')
    ∧ Z.of_nat m ≤ index_bound 20 15 40
    ∧ positions st'.(calls) = (λ k : nat, Z.of_nat k * 15) <$> seq 0 m
    ∧ (∀ k, (k < m)%nat →
         Z.of_nat k * 15 < index_bound 20 15 40
         ∧ decoded dark_clip ((λ j : nat, Z.of_nat j * 15) <$> seq 0 k) < 20)
    ∧ st'.(frame_index) = Z.of_nat m * 15
    ∧ (st'.(samples_collected) = 20 ∨ index_bound 20 15 40 ≤ st'.(frame_index))
    ∧ st'.(samples_collected) = decoded dark_clip (positions st'.(calls))
    ∧ 0 ≤ st'.(samples_collected) ≤ 20.
Proof.
  apply (sampling_loop_terminates (H := row_images) dark_clip true 20 15 40 first_state);
    [lia | lia | reflexivity | reflexivity | reflexivity].
Defined.

(** ** The scenarios of the specification *)

Example good_clip_is_accepted :
  (analyze_video_quality (H := row_images) squat_flags 30 good_clip 20 15 "squat"
     ≫= λ '(metrics, issues, _),
          (λ r, r.1) <$> evaluate_video_acceptance metrics issues (default_stats "squat"))
  = Some (true, []).
Proof. reflexivity. Qed.

Example dark_clip_fails_four_checks :
  (analyze_video_quality (H := row_images) squat_flags 30 dark_clip 20 15 "squat"
     ≫= λ '(metrics, issues, _),
          (λ r, r.1) <$> evaluate_video_acceptance metrics issues (default_stats "squat"))
  = Some (false, ["low_resolution"; "too_dark"; "blurry"; "insufficient_motion"]).
Proof. reflexivity. Qed.

Example unopened_is_corrupted :
  (analyze_video_quality (H := row_images) squat_flags 30 unopened 20 15 "squat"
     ≫= λ '(metrics, issues, _),
          (λ r, r.1) <$> evaluate_video_acceptance metrics issues (default_stats "squat"))
  = Some (false, ["corrupted_file"]).
Proof. reflexivity. Qed.

Example undecodable_is_corrupted :
  (analyze_video_quality (H := row_images) squat_flags 30 undecodable 20 15 "squat"
     ≫= λ '(metrics, issues, _),
          (λ r, (issues, r.1)) <$>
            evaluate_video_acceptance metrics issues (default_stats "squat"))
  = Some (["corrupted_file"], (false, ["corrupted_file"])).
Proof. reflexivity. Qed.

Example video_file_names :
  is_video "Squat_01.MP4" = true ∧ is_video "clip.mov" = true
  ∧ is_video "notes.txt" = false ∧ is_video "mp4" = false.
Proof. by vm_compute. Qed.

Example small_walk_report :
  (clean_dataset (H := row_images) squat_flags
     [ ("squat", [("a.mp4", good_clip); ("b.avi", dark_clip); ("readme.md", unopened)]);
       ("empty", []);
       ("docs", [("notes.txt", unopened)]);
       ("plank", [("c.mov", unopened)]) ]
     ≫= λ '(run, _),
          Some (length run.(overall_exercise_stats),
                (λ col, field col run.(totals)) <$> counter_columns,
                log_decision <$> run.(VIDEO_LOG), run.(copied)))
  = Some (2%nat, [3; 1; 2; 1; 1; 1; 0; 1; 1],
          ["accepted"; "rejected"; "rejected"], [("squat", "a.mp4")]).
Proof. by vm_compute. Qed.

(** * Further properties *)

(** ** The loop variables *)

Section LoopInvariant.
Context `{Vision}.
Implicit Types (cap : VideoCapture) (st : LoopState).

Lemma decoded_app cap l1 l2 : decoded cap (l1 ++ l2) = decoded cap l1 + decoded cap l2.
Proof. unfold decoded. rewrite filter_app, length_app. lia. Qed.

Lemma decoded_one cap i :
  decoded cap [i] = match cap.(read_at) i with Some _ => 1 | None => 0 end.
Proof.
  unfold decoded. rewrite filter_cons, filter_nil.
  destruct (read_at cap i); reflexivity.
Qed.

Lemma visits_app l1 l2 : visits (l1 ++ l2) = visits l1 ++ visits l2.
Proof. unfold visits. apply bind_app. Qed.

Lemma positions_visits l : positions (visits l) = l.
Proof. induction l as [|i l IH]; [done|]. simpl. by rewrite IH. Qed.

Lemma loop_inv_start cap flag : loop_inv cap flag loop_start.
Proof.
  exists []. simpl. split_and!; try done.
  - by destruct flag.
  - split; [auto | done].
Qed.

Lemma loop_inv_body cap flag stride st :
  loop_inv cap flag st → loop_inv cap flag (loop_body cap flag stride st).
Proof.
  intros (visited & Hcalls & Hsam & Hbr & Hsh & Hcr & Hact & Hpairs & Hprev).
  exists (visited ++ [st.(frame_index)]).
  pose proof (decoded_range cap visited) as Hrange.
  rewrite decoded_app, decoded_one, visits_app, app_assoc, <- Hcalls.
  unfold loop_body. destruct (read_at cap (frame_index st)) as [frame|]; simpl.
  2: { split_and!; try done; try lia. }
  destruct flag; simpl.
  - destruct (prev_gray_for_motion st) as [prev|] eqn:Hp; simpl.
    + assert (samples_collected st ≠ 0) as Hne.
      { intros Hz. destruct Hprev as [_ Hprev]. by specialize (Hprev (or_intror Hz)). }
      rewrite !length_app; simpl.
      split_and!; try done; try lia.
      * destruct (ge _ _); lia.
      * destruct (ge _ _); lia.
      * split; [done | intros [?|?]; [done | lia]].
    + assert (samples_collected st = 0) as Hz.
      { destruct Hprev as [Hprev _]. by destruct (Hprev eq_refl). }
      rewrite !length_app; simpl.
      split_and!; try done; try lia.
      split; [done | intros [?|?]; [done | lia]].
  - rewrite !length_app; simpl.
    split_and!; try done; try lia.
    split; [auto | intros _; apply Hprev; auto].
Qed.

Lemma sampling_loop_inv fuel cap flag N S fc st st' :
  sampling_loop fuel cap flag N S fc st = Some st' →
  loop_inv cap flag st → loop_inv cap flag st'.
Proof.
  revert st. induction fuel as [|fuel IH]; intros st; simpl.
  all: destruct (loop_cond N S fc st); try discriminate.
  1,3: by intros [= <-].
  intros Hrun Hinv. apply (IH _ Hrun). by apply loop_inv_body.
Qed.

End LoopInvariant.

(** ** What the analyzer returns *)

Section AnalyzerResults.
Context `{Vision}.
Variable MOTION_FLAGS : gmap string bool.
Implicit Types (cap : VideoCapture) (st : LoopState).

Lemma analyze_video_quality_opened fuel cap N S name metrics issues trace :
  cap.(isOpened) = true →
  analyze_video_quality MOTION_FLAGS fuel cap N S name = Some (metrics, issues, trace) →
  ∃ st,
    sampling_loop fuel cap (default false (MOTION_FLAGS !! name)) N S
      cap.(CAP_PROP_FRAME_COUNT) loop_start = Some st
    ∧ trace = calls st ++ [CallRelease]
    ∧ issues = (if st.(samples_collected) =? 0 then ["corrupted_file"] else [])
    ∧ metrics.(mean_brightness)
      = Some (match st.(sampled_brightness) with
              | [] => nan | _ => np_mean st.(sampled_brightness) end)
    ∧ metrics.(sharpness_score)
      = Some (match st.(sampled_sharpness) with
              | [] => nan | _ => np_mean st.(sampled_sharpness) end)
    ∧ metrics.(motion_flag) = Some (default false (MOTION_FLAGS !! name))
    ∧ metrics.(motion_pairs)
      = Some (if default false (MOTION_FLAGS !! name) then st.(pairs) else 0)
    ∧ metrics.(motion_active_pairs)
      = Some (if default false (MOTION_FLAGS !! name) then st.(active_count) else 0)
    ∧ metrics.(motion_detected)
      = Some (if default false (MOTION_FLAGS !! name) && (0 <? st.(pairs))
              then ge (truediv st.(active_count) st.(pairs)) MOTION_MIN_ACTIVE_FRAME_PCT
              else false)
    ∧ metrics.(motion_active_frame_pct)
      = Some (if default false (MOTION_FLAGS !! name) && (0 <? st.(pairs))
              then truediv st.(active_count) st.(pairs) else nan).
Proof.
  intros Hopen. unfold analyze_video_quality. rewrite Hopen. cbn [negb].
  fold opening_calls. fold loop_start.
  destruct (sampling_loop fuel cap _ N S _ loop_start) as [st|]; [|discriminate].
  cbn [mbind option_bind]. intros Hrun. exists st.
  destruct (_ && _) in Hrun |- *; injection Hrun as <- <- <-; cbn.
  all: by split_and!.
Qed.

Lemma analyze_video_quality_trace fuel cap N S name metrics issues trace :
  cap.(isOpened) = true →
  analyze_video_quality MOTION_FLAGS fuel cap N S name = Some (metrics, issues, trace) →
  ∃ st visited,
    sampling_loop fuel cap (default false (MOTION_FLAGS !! name)) N S
      cap.(CAP_PROP_FRAME_COUNT) loop_start = Some st
    ∧ loop_inv cap (default false (MOTION_FLAGS !! name)) st
    ∧ trace = opening_calls ++ visits visited ++ [CallRelease]
    ∧ positions trace = visited
    ∧ st.(samples_collected) = decoded cap visited.
Proof.
  intros Hopen Hrun.
  destruct (analyze_video_quality_opened _ _ _ _ _ _ _ _ Hopen Hrun)
    as (st & Hloop & -> & _).
  pose proof (sampling_loop_inv _ _ _ _ _ _ _ _ Hloop (loop_inv_start _ _)) as Hinv.
  pose proof Hinv as (visited & Hcalls & Hsam & _).
  exists st, visited. rewrite Hcalls, <- app_assoc. split_and!; try done.
  rewrite !positions_app, positions_visits. simpl. by rewrite app_nil_r.
Qed.



(** With a stride of at least one the analysis returns, and returns
    the same, whatever number of iterations it is given from the bound
    of the frame index on; the indices it visits are the first few
    multiples of the stride. *)
Lemma analyze_video_quality_ends cap N S name :
  1 ≤ S →
  ∃ metrics issues trace (m : nat),
    (∀ fuel, (Z.to_nat (index_bound N S cap.(CAP_PROP_FRAME_COUNT)) ≤ fuel)%nat →
       analyze_video_quality MOTION_FLAGS fuel cap N S name
       = Some (metrics, issues, trace))
    ∧ (m ≤ Z.to_nat (index_bound N S cap.(CAP_PROP_FRAME_COUNT)))%nat
    ∧ positions trace = candidates 0 S m.
Proof.
  intros HS.
  set (bound := Z.to_nat (index_bound N S cap.(CAP_PROP_FRAME_COUNT))).
  destruct (isOpened cap) eqn:Hopen.
  2: { exists empty_metrics, ["corrupted_file"], [CallIsOpened], 0%nat.
       split_and!; [|lia|done].
       intros fuel _. unfold analyze_video_quality. by rewrite Hopen. }
  assert (∃ st (m : nat),
            (∀ fuel, (bound ≤ fuel)%nat →
               sampling_loop fuel cap (default false (MOTION_FLAGS !! name)) N S
                 cap.(CAP_PROP_FRAME_COUNT) loop_start = Some st)
            ∧ (m ≤ bound)%nat
            ∧ positions st.(calls) = candidates 0 S m) as (st & m & Hst & Hm & Hpos).
  { destruct (Z.lt_ge_cases N 0) as [Hneg|Hpos].
    - exists loop_start, 0%nat. split_and!; [|lia|done].
      intros fuel _. apply sampling_loop_stop. unfold loop_cond. simpl.
      by rewrite (proj2 (Z.ltb_ge _ _)) by lia.
    - destruct (sampling_loop_from cap (default false (MOTION_FLAGS !! name)) N S
                  cap.(CAP_PROP_FRAME_COUNT) bound loop_start)
        as (m & st & Hm & Hrun & Hvisited & _); [done | simpl; lia | simpl; lia |].
      exists st, m. split_and!; [|done|done].
      intros fuel Hfuel. apply Hrun. lia. }
  destruct (analyze_video_quality MOTION_FLAGS bound cap N S name)
    as [[[metrics issues] trace]|] eqn:Hrun.
  2: { unfold analyze_video_quality in Hrun. rewrite Hopen in Hrun. cbn [negb] in Hrun.
       fold opening_calls in Hrun. fold loop_start in Hrun.
       rewrite (Hst bound) in Hrun by done.
       cbn [mbind option_bind] in Hrun. by destruct (_ && _) in Hrun. }
  exists metrics, issues, trace, m. split_and!; [|done|].
  - intros fuel Hfuel. rewrite <- Hrun. unfold analyze_video_quality.
    rewrite Hopen. cbn [negb]. fold opening_calls. fold loop_start.
    by rewrite (Hst fuel Hfuel), (Hst bound) by done.
  - destruct (analyze_video_quality_opened _ _ _ _ _ _ _ _ Hopen Hrun)
      as (st' & Hloop & -> & _).
    rewrite (Hst bound) in Hloop by done. injection Hloop as <-.
    rewrite positions_app, Hpos. simpl. by rewrite app_nil_r.
Qed.

End AnalyzerResults.

Lemma corrupted_rejects_alone_run metrics issues stats n :
  "corrupted_file" ∈ issues
  ∨ undefined metrics.(mean_brightness) ∨ undefined metrics.(sharpness_score) →
  stats !! "corrupted_files" = Some (PyInt n) →
  evaluate_video_acceptance metrics issues stats
  = Some (false, ["corrupted_file"], <["corrupted_files" := PyInt (n + 1)]> stats).
Proof.
  intros Hc%is_corrupted_true Hn. unfold is_corrupted in Hc.
  unfold evaluate_video_acceptance. rewrite Hc.
  unfold mbind, StatsM_bind, incr. by rewrite (add_to_int _ n).
Qed.

Section AnalyzerProperties.
Context `{Vision}.
Variable MOTION_FLAGS : gmap string bool.
Implicit Types (cap : VideoCapture) (st : LoopState).

(** X1. A file that the decoder cannot open goes through analysis and
    evaluation as a corrupted file: the verdict is a rejection with
    the single reason ["corrupted_file"], and [corrupted_files] is the
    only counter that moves. *)
Theorem unopened_file_is_rejected fuel cap N S name stats n :
  cap.(isOpened) = false →
  stats !! "corrupted_files" = Some (PyInt n) →
  (analyze_video_quality MOTION_FLAGS fuel cap N S name
     ≫= λ '(metrics, issues, _), evaluate_video_acceptance metrics issues stats)
  = Some (false, ["corrupted_file"], <["corrupted_files" := PyInt (n + 1)]> stats).
Proof.
  intros Hclosed Hn. unfold analyze_video_quality. rewrite Hclosed.
  cbn [negb mbind option_bind].
  apply corrupted_rejects_alone_run; [|done].
  left. apply list_elem_of_here.
Qed.

(** What a returned result says about the frames that decoded. *)
Lemma corrupted_issue_of_run fuel cap N S name metrics issues trace :
  cap.(isOpened) = true →
  analyze_video_quality MOTION_FLAGS fuel cap N S name = Some (metrics, issues, trace) →
  (decoded cap (positions trace) = 0 →
     issues = ["corrupted_file"]
     ∧ metrics.(mean_brightness) = Some nan ∧ metrics.(sharpness_score) = Some nan)
  ∧ (decoded cap (positions trace) ≠ 0 → issues = []).
Proof.
  intros Hopen Hrun.
  destruct (analyze_video_quality_trace _ _ _ _ _ _ _ _ _ Hopen Hrun)
    as (st & visited & Hloop & Hinv & _ & -> & Hsam).
  destruct (analyze_video_quality_opened _ _ _ _ _ _ _ _ _ Hopen Hrun)
    as (st2 & Hloop2 & _ & -> & -> & -> & _).
  assert (st2 = st) as -> by congruence.
  destruct Hinv as (_ & _ & _ & Hbr & Hsh & _).
  rewrite <- Hsam. split.
  - intros Hz. rewrite Hz in *. simpl.
    destruct (sampled_brightness st), (sampled_sharpness st); simpl in *; try lia.
    done.
  - intros Hnz. by rewrite (proj2 (Z.eqb_neq _ _) Hnz).
Qed.


Lemma motion_pairs_of_run fuel cap N S name metrics issues trace :
  cap.(isOpened) = true →
  analyze_video_quality MOTION_FLAGS fuel cap N S name = Some (metrics, issues, trace) →
  ∃ p a,
    metrics.(motion_pairs) = Some p ∧ metrics.(motion_active_pairs) = Some a
    ∧ 0 ≤ a ≤ p
    ∧ p = if default false (MOTION_FLAGS !! name)
          then Z.max 0 (decoded cap (positions trace) - 1) else 0.
Proof.
  intros Hopen Hrun.
  destruct (analyze_video_quality_trace _ _ _ _ _ _ _ _ _ Hopen Hrun)
    as (st & visited & Hloop & Hinv & _ & -> & Hsam).
  destruct (analyze_video_quality_opened _ _ _ _ _ _ _ _ _ Hopen Hrun)
    as (st2 & Hloop2 & _ & _ & _ & _ & _ & -> & -> & _).
  assert (st2 = st) as -> by congruence.
  destruct Hinv as (_ & _ & _ & _ & _ & _ & Hact & Hpairs & _).
  rewrite <- Hsam. eexists _, _. split_and!; try done.
  all: destruct (default false (MOTION_FLAGS !! name)); lia.
Qed.


Lemma calls_of_run fuel cap N S name metrics issues trace :
  cap.(isOpened) = true →
  analyze_video_quality MOTION_FLAGS fuel cap N S name = Some (metrics, issues, trace) →
  trace = opening_calls ++ visits (positions trace) ++ [CallRelease].
Proof.
  intros Hopen Hrun.
  destruct (analyze_video_quality_trace _ _ _ _ _ _ _ _ _ Hopen Hrun)
    as (st & visited & _ & _ & Htrace & Hpos & _).
  by rewrite Hpos.
Qed.

(** X2. With a stride of at least one, the analysis of a file that
    opened returns, whatever number of iterations it is given from the
    bound of the frame index on.  In what it returns, the issue
    ["corrupted_file"] is raised exactly when no frame decoded at the
    visited indices; in that case the mean brightness and the
    sharpness score are NaN, and otherwise there is no issue. *)
Theorem corrupted_issue_iff_no_frame cap N S name :
  cap.(isOpened) = true → 1 ≤ S →
  ∃ metrics issues trace,
    (∀ fuel, (Z.to_nat (index_bound N S cap.(CAP_PROP_FRAME_COUNT)) ≤ fuel)%nat →
       analyze_video_quality MOTION_FLAGS fuel cap N S name
       = Some (metrics, issues, trace))
    ∧ (decoded cap (positions trace) = 0 →
         issues = ["corrupted_file"]
         ∧ metrics.(mean_brightness) = Some nan
         ∧ metrics.(sharpness_score) = Some nan)
    ∧ (decoded cap (positions trace) ≠ 0 → issues = []).
Proof.
  intros Hopen HS.
  destruct (analyze_video_quality_ends MOTION_FLAGS cap N S name HS)
    as (metrics & issues & trace & m & Hrun & _).
  exists metrics, issues, trace. split; [done|].
  by apply (corrupted_issue_of_run _ cap N S name metrics issues trace Hopen
              (Hrun _ (le_n _))).
Qed.


(** X4. With a stride of at least one, the analysis of a file that
    opened returns, and the motion counts of the metrics are those of
    the consecutive pairs of decoded frames: with the motion flag on
    there is one pair less than decoded frames (none when nothing
    decoded), with the flag off none; the active pairs are between
    zero and the pairs. *)
Theorem motion_pairs_count cap N S name :
  cap.(isOpened) = true → 1 ≤ S →
  ∃ metrics issues trace p a,
    (∀ fuel, (Z.to_nat (index_bound N S cap.(CAP_PROP_FRAME_COUNT)) ≤ fuel)%nat →
       analyze_video_quality MOTION_FLAGS fuel cap N S name
       = Some (metrics, issues, trace))
    ∧ metrics.(motion_pairs) = Some p ∧ metrics.(motion_active_pairs) = Some a
    ∧ 0 ≤ a ≤ p
    ∧ p = if default false (MOTION_FLAGS !! name)
          then Z.max 0 (decoded cap (positions trace) - 1) else 0.
Proof.
  intros Hopen HS.
  destruct (analyze_video_quality_ends MOTION_FLAGS cap N S name HS)
    as (metrics & issues & trace & m & Hrun & _).
  destruct (motion_pairs_of_run _ cap N S name metrics issues trace Hopen
              (Hrun _ (le_n _))) as (p & a & Hrest).
  by exists metrics, issues, trace, p, a.
Qed.


(** X6. With a stride of at least one, the analysis of a file that
    opened returns, and the calls made on the decoder are, in order:
    [isOpened], the three property reads, then for every visited index
    a positioning followed by one read, then [release].  No frame is
    read without the decoder having been positioned just before. *)
Theorem calls_in_order cap N S name :
  cap.(isOpened) = true → 1 ≤ S →
  ∃ metrics issues trace,
    (∀ fuel, (Z.to_nat (index_bound N S cap.(CAP_PROP_FRAME_COUNT)) ≤ fuel)%nat →
       analyze_video_quality MOTION_FLAGS fuel cap N S name
       = Some (metrics, issues, trace))
    ∧ trace = opening_calls ++ visits (positions trace) ++ [CallRelease].
Proof.
  intros Hopen HS.
  destruct (analyze_video_quality_ends MOTION_FLAGS cap N S name HS)
    as (metrics & issues & trace & m & Hrun & _).
  exists metrics, issues, trace. split; [done|].
  by apply (calls_of_run _ cap N S name metrics issues trace Hopen (Hrun _ (le_n _))).
Qed.

(** X7. When no sample is asked for ([num_frames <= 0]) the loop body
    never runs: whatever the stride and the fuel, a file that opened
    is released without a single read and is flagged
    ["corrupted_file"]. *)
Theorem no_samples_requested fuel cap N S name :
  cap.(isOpened) = true → N ≤ 0 →
  ∃ metrics,
    analyze_video_quality MOTION_FLAGS fuel cap N S name
    = Some (metrics, ["corrupted_file"], opening_calls ++ [CallRelease])
    ∧ metrics.(mean_brightness) = Some nan.
Proof.
  intros Hopen HN. unfold analyze_video_quality. rewrite Hopen. cbn [negb].
  fold opening_calls. fold loop_start.
  rewrite sampling_loop_stop.
  2: { unfold loop_cond. simpl. by rewrite (proj2 (Z.ltb_ge _ _) HN). }
  cbn [mbind option_bind]. simpl. rewrite andb_false_r. simpl. eauto.
Qed.

(** X8. With a stride of zero the index never moves: if the frame at
    index 0 does not decode and at least one sample is asked for, the
    loop does not end, whatever the reported frame count. *)
Theorem stride_zero_never_returns fuel cap N name :
  cap.(isOpened) = true → 1 ≤ N → cap.(read_at) 0 = None →
  analyze_video_quality MOTION_FLAGS fuel cap N 0 name = None.
Proof.
  intros Hopen HN Hread. unfold analyze_video_quality. rewrite Hopen. cbn [negb].
  rewrite sampling_loop_stride_zero; [done | simpl; lia | | done].
  unfold index_bound. simpl. lia.
Qed.

End AnalyzerProperties.

Section FullSampling.
Context `{Vision}.
Variable MOTION_FLAGS : gmap string bool.
Implicit Types (cap : VideoCapture) (st : LoopState).

Lemma decoded_candidates_all cap start S (k : nat) :
  (∀ j : nat, (j < k)%nat → is_Some (cap.(read_at) (start + Z.of_nat j * S))) →
  decoded cap (candidates start S k) = Z.of_nat k.
Proof.
  revert start. induction k as [|k IH]; intros start Hall; [done|].
  simpl. rewrite (decoded_cons cap), decoded_one.
  destruct (Hall 0%nat) as [frame Hframe]; [lia|].
  rewrite Z.mul_0_l, Z.add_0_r in Hframe. rewrite Hframe, IH; [lia|].
  intros j Hj. destruct (Hall (Datatypes.S j)) as [f Hf]; [lia|].
  exists f. rewrite <- Hf. f_equal. lia.
Qed.

Lemma sampling_loop_all_decodable cap flag N S fc :
  0 ≤ N → 1 ≤ S →
  (∀ k, 0 ≤ k < N → is_Some (cap.(read_at) (k * S))) →
  ∃ st,
    sampling_loop (Z.to_nat N) cap flag N S fc loop_start = Some st
    ∧ positions st.(calls) = candidates 0 S (Z.to_nat N)
    ∧ st.(samples_collected) = N.
Proof.
  intros HN HS Hall.
  destruct (sampling_loop_from cap flag N S fc (Z.to_nat (index_bound N S fc)) loop_start)
    as (m & st & _ & Hrun & Hpos & Hidx & Hsam & _ & Hstop & Hcont);
    [done | simpl; lia | simpl; lia |].
  simpl in Hpos, Hidx, Hsam, Hcont.
  assert (∀ k : nat, (Z.of_nat k ≤ N) → decoded cap (candidates 0 S k) = Z.of_nat k)
    as Hdec.
  { intros k Hk. apply decoded_candidates_all. intros j Hj.
    rewrite Z.add_0_l. apply Hall. lia. }
  assert (m = Z.to_nat N) as ->.
  { destruct (Z.lt_trichotomy (Z.of_nat m) N) as [Hlt|[Heq|Hgt]]; [exfalso | lia | exfalso].
    - rewrite Hdec in Hsam by lia.
      unfold loop_cond in Hstop. rewrite Hsam, Hidx in Hstop.
      apply andb_false_iff in Hstop as [Hc%Z.ltb_ge | Hc%Z.ltb_ge]; [lia | nia].
    - destruct (Hcont (Z.to_nat N)) as [_ Hc]; [lia|].
      rewrite Hdec in Hc by lia. lia. }
  exists st. split_and!; [apply Hrun; lia | done |].
  rewrite Hsam, Hdec by lia. lia.
Qed.

(** X9. When the frames at the indices [0], [S], ..., [(N-1)S] all
    decode, the analysis ends after exactly [N] iterations, having
    read exactly those indices and collected [N] frames - whatever
    frame count the decoder reports, also zero or a negative one. *)
Theorem decodable_video_sampled_at_stride cap N S name :
  cap.(isOpened) = true → 0 ≤ N → 1 ≤ S →
  (∀ k, 0 ≤ k < N → is_Some (cap.(read_at) (k * S))) →
  ∃ metrics issues trace,
    analyze_video_quality MOTION_FLAGS (Z.to_nat N) cap N S name
    = Some (metrics, issues, trace)
    ∧ positions trace = (λ k : nat, Z.of_nat k * S) <$> seq 0 (Z.to_nat N)
    ∧ decoded cap (positions trace) = N
    ∧ (1 ≤ N → issues = []).
Proof.
  intros Hopen HN HS Hall.
  destruct (sampling_loop_all_decodable cap (default false (MOTION_FLAGS !! name))
              N S cap.(CAP_PROP_FRAME_COUNT) HN HS Hall) as (st & Hloop & Hpos & Hsam).
  destruct (analyze_video_quality MOTION_FLAGS (Z.to_nat N) cap N S name)
    as [[[metrics issues] trace]|] eqn:Hrun.
  2: { unfold analyze_video_quality in Hrun. rewrite Hopen in Hrun. cbn [negb] in Hrun.
       fold opening_calls in Hrun. fold loop_start in Hrun. rewrite Hloop in Hrun.
       cbn [mbind option_bind] in Hrun. by destruct (_ && _) in Hrun. }
  destruct (analyze_video_quality_trace _ _ _ _ _ _ _ _ _ Hopen Hrun)
    as (st1 & visited & Hloop1 & Hinv & Htrace & Hvis & Hdec).
  destruct (analyze_video_quality_opened _ _ _ _ _ _ _ _ _ Hopen Hrun)
    as (st2 & Hloop2 & Hcalls & Hiss & _).
  assert (st1 = st) as -> by congruence. assert (st2 = st) as -> by congruence.
  assert (visited = candidates 0 S (Z.to_nat N)) as Hcand.
  { rewrite <- Hpos, <- Hvis, Hcalls, positions_app. simpl. by rewrite app_nil_r. }
  exists metrics, issues, trace. split_and!; [done | | |].
  - rewrite Hvis, Hcand, candidates_seq. apply list_fmap_ext. intros; lia.
  - rewrite Hvis, <- Hdec. done.
  - intros H1. rewrite Hiss, Hsam. by rewrite (proj2 (Z.eqb_neq _ _)) by lia.
Qed.

End FullSampling.

(** ** More on the acceptance policy *)

Lemma SFleb_not_SFltb x y : SFleb x y = true → SFltb y x = false.
Proof.
  unfold SFleb, SFltb, SFcompare.
  destruct x as [sx|sx| |sx mx ex], y as [sy|sy| |sy my ey]; try done.
  all: try (destruct sx; done). all: try (destruct sy; done).
  all: try (destruct sx, sy; done).
  destruct sx, sy; try done.
  - rewrite (Z.compare_antisym ey ex). destruct (ey ?= ex); simpl; try done.
    fold (Pos.compare my mx). fold (Pos.compare mx my).
    rewrite (Pos.compare_antisym my mx). by destruct (my ?= mx)%positive.
  - rewrite (Z.compare_antisym ey ex). destruct (ey ?= ex); simpl; try done.
    fold (Pos.compare my mx). fold (Pos.compare mx my).
    rewrite (Pos.compare_antisym my mx). by destruct (my ?= mx)%positive.
Qed.

Lemma SFleb_not_nan_l x y : SFleb x y = true → isnan x = false.
Proof. by destruct x. Qed.

Lemma SFleb_not_nan_r x y : SFleb x y = true → isnan y = false.
Proof. by destruct x, y. Qed.

Lemma evaluate_video_acceptance_returns metrics issues stats :
  ints_at (counter_of <$> reasons_of metrics issues) stats →
  is_Some (evaluate_video_acceptance metrics issues stats).
Proof.
  unfold evaluate_video_acceptance, reasons_of, is_corrupted, low_resolution,
    too_dark, too_bright, blurry, insufficient_motion.
  intros Hint.
  repeat match goal with
  | |- context [if ?c then _ else _] => destruct c
  end.
  all: unfold mbind, StatsM_bind, mret, StatsM_ret.
  all: repeat (erewrite (incr_ok _ _ _);
               [cbn beta iota | eauto using ints_at_bump | simpl; elem_here]).
  all: eauto.
Qed.

(** X10. The evaluator looks only at the counters of the reasons that
    fire.  It returns whenever each of those holds an int, whatever
    else the stats dictionary holds or lacks; it raises when one of
    them is missing from the dictionary or holds a string. *)
Theorem evaluator_looks_only_at_fired_counters metrics issues stats :
  (ints_at (counter_of <$> reasons_of metrics issues) stats →
   is_Some (evaluate_video_acceptance metrics issues stats))
  ∧ (∀ key,
       key ∈ counter_of <$> reasons_of metrics issues →
       stats !! key = None ∨ (∃ text, stats !! key = Some (PyStr text)) →
       evaluate_video_acceptance metrics issues stats = None).
Proof.
  split; [apply evaluate_video_acceptance_returns|].
  intros key Hkey Hbad.
  destruct (evaluate_video_acceptance metrics issues stats)
    as [[[accepted reasons] stats']|] eqn:Hrun; [|done].
  apply evaluate_video_acceptance_inv in Hrun as (-> & _ & _ & Hint).
  destruct (Hint key Hkey) as [n Hn].
  destruct Hbad as [Hnone|[text Htext]]; congruence.
Qed.

Lemma ints_at_foldl_bump cols stats ks :
  ints_at cols stats → ints_at cols (foldl bump stats ks).
Proof.
  revert stats. induction ks as [|k ks IH]; intros stats Hint; [done|].
  simpl. by apply IH, ints_at_bump.
Qed.

(** X11. Evaluating the same metrics a second time, on the stats
    dictionary that the first call left, gives the same verdict and
    the same reasons; the counter of every reason is then two above
    its first value. *)
Theorem second_evaluation_counts_again metrics issues stats accepted reasons stats' :
  evaluate_video_acceptance metrics issues stats = Some (accepted, reasons, stats') →
  ∃ stats'',
    evaluate_video_acceptance metrics issues stats' = Some (accepted, reasons, stats'')
    ∧ ∀ reason, reason ∈ reasons →
        ∃ n, stats !! counter_of reason = Some (PyInt n)
             ∧ stats'' !! counter_of reason = Some (PyInt (n + 2)).
Proof.
  intros Hrun.
  pose proof Hrun as (Hr & Ha & Hs & Hint)%evaluate_video_acceptance_inv.
  assert (ints_at (counter_of <$> reasons_of metrics issues) stats') as Hint'.
  { subst. by apply ints_at_foldl_bump. }
  destruct (evaluate_video_acceptance_returns _ _ _ Hint')
    as [[[accepted2 reasons2] stats''] Hrun2].
  pose proof Hrun2 as (Hr2 & Ha2 & Hs2 & _)%evaluate_video_acceptance_inv.
  exists stats''. subst accepted2 reasons2 accepted reasons. split; [exact Hrun2|].
  intros reason Hin.
  assert (counter_of reason ∈ counter_of <$> reasons_of metrics issues) as Hkey
    by by apply list_elem_of_fmap_2.
  destruct (Hint _ Hkey) as [n Hn]. exists n. split; [done|].
  rewrite Hs2, Hs.
  replace (n + 2) with (n + 1 + 1) by lia.
  apply foldl_bump_in; [apply NoDup_reasons_of | done |].
  apply foldl_bump_in; [apply NoDup_reasons_of | done..].
Qed.

Lemma reasons_of_ordered metrics issues :
  reasons_of metrics issues = ["corrupted_file"]
  ∨ reasons_of metrics issues
      `sublist_of` ["low_resolution"; "too_dark"; "too_bright"; "blurry";
                    "insufficient_motion"].
Proof.
  unfold reasons_of. destruct (is_corrupted metrics issues); [by left | right].
  destruct (low_resolution metrics), (too_dark metrics), (too_bright metrics),
    (blurry metrics), (insufficient_motion metrics); simpl.
  all: repeat first [ apply sublist_nil_l
                    | apply sublist_skip
                    | apply sublist_cons ].
Qed.

Lemma reasons_of_length metrics issues : (length (reasons_of metrics issues) ≤ 4)%nat.
Proof.
  unfold reasons_of.
  destruct (is_corrupted metrics issues), (low_resolution metrics), (too_dark metrics),
    (too_bright metrics), (blurry metrics), (insufficient_motion metrics); simpl; lia.
Qed.

(** X12. The reasons come in the order of the checks and without
    repetition: the list is either ["corrupted_file"] alone or a
    sublist of low_resolution, too_dark, too_bright, blurry,
    insufficient_motion; there are never more than four reasons. *)
Theorem reasons_in_check_order metrics issues stats accepted reasons stats' :
  evaluate_video_acceptance metrics issues stats = Some (accepted, reasons, stats') →
  (reasons = ["corrupted_file"]
   ∨ reasons `sublist_of` ["low_resolution"; "too_dark"; "too_bright"; "blurry";
                           "insufficient_motion"])
  ∧ NoDup reasons
  ∧ (length reasons ≤ 4)%nat.
Proof.
  intros (-> & _)%evaluate_video_acceptance_inv.
  split_and!; [apply reasons_of_ordered | | apply reasons_of_length].
  destruct (reasons_of_ordered metrics issues) as [-> | Hsub].
  - apply NoDup_singleton.
  - eapply sublist_NoDup; [|exact Hsub]. by apply (bool_decide_unpack _); vm_compute.
Qed.

(** X13. The evaluator accepts exactly the inputs that pass every
    check: no corrupted-file issue, brightness and sharpness defined,
    at least 640 by 360 (a missing width or height counts as 0),
    brightness neither below 35 nor above 190, sharpness not below 50,
    and motion detected whenever the motion flag is set. *)
Theorem accepted_iff_all_checks_pass metrics issues stats accepted reasons stats' :
  evaluate_video_acceptance metrics issues stats = Some (accepted, reasons, stats') →
  accepted = true ↔
    ("corrupted_file" ∉ issues)
    ∧ ¬ undefined metrics.(mean_brightness)
    ∧ ¬ undefined metrics.(sharpness_score)
    ∧ 640 ≤ default 0 metrics.(width)
    ∧ 360 ≤ default 0 metrics.(height)
    ∧ lt (default nan metrics.(mean_brightness)) (of_int 35) = false
    ∧ gt (default nan metrics.(mean_brightness)) (of_int 190) = false
    ∧ lt (default nan metrics.(sharpness_score)) (of_int 50) = false
    ∧ (default false metrics.(motion_flag) = true →
       default false metrics.(motion_detected) = true).
Proof.
  intros (-> & -> & _)%evaluate_video_acceptance_inv.
  rewrite bool_decide_eq_true.
  assert (is_corrupted metrics issues = false ↔
            ("corrupted_file" ∉ issues) ∧ ¬ undefined metrics.(mean_brightness)
            ∧ ¬ undefined metrics.(sharpness_score)) as Hcorr.
  { rewrite <- not_true_iff_false, is_corrupted_true. tauto. }
  unfold reasons_of.
  destruct (is_corrupted metrics issues) eqn:Hc.
  { split; [done|]. intros (H1 & H2 & H3 & _).
    assert (true = false) by (apply Hcorr; tauto). done. }
  assert (("corrupted_file" ∉ issues) ∧ ¬ undefined metrics.(mean_brightness)
          ∧ ¬ undefined metrics.(sharpness_score)) as (H1 & H2 & H3) by by apply Hcorr.
  unfold low_resolution, too_dark, too_bright, blurry, insufficient_motion,
    MIN_FRAME_WIDTH, MIN_FRAME_HEIGHT, MIN_BRIGHTNESS, MAX_BRIGHTNESS,
    MIN_SHARPNESS_SCORE.
  destruct (default 0 (width metrics) <? 640) eqn:Hw;
    destruct (default 0 (height metrics) <? 360) eqn:Hh;
    destruct (lt (default nan (mean_brightness metrics)) (of_int 35)) eqn:Hd;
    destruct (gt (default nan (mean_brightness metrics)) (of_int 190)) eqn:Hb;
    destruct (lt (default nan (sharpness_score metrics)) (of_int 50)) eqn:Hs;
    destruct (default false (motion_detected metrics)) eqn:Hm;
    destruct (default false (motion_flag metrics)) eqn:Hf; simpl.
  all: rewrite ?Z.ltb_lt, ?Z.ltb_ge in *.
  all: split; [try done | intros (_ & _ & _ & ? & ? & ? & ? & ? & ?)];
         try done; try lia; try (by auto).
Qed.

(** X14. The thresholds are inclusive: a video of at least 640 by
    360, with brightness from 35 up to 190, sharpness of 50 or more and
    motion detected if the flag is set, is accepted with no reason,
    and the stats dictionary - whatever it holds, even nothing - is
    left as it was. *)
Theorem within_thresholds_accepted metrics issues stats :
  "corrupted_file" ∉ issues →
  640 ≤ default 0 metrics.(width) → 360 ≤ default 0 metrics.(height) →
  SFleb (of_int 35) (default nan metrics.(mean_brightness)) = true →
  SFleb (default nan metrics.(mean_brightness)) (of_int 190) = true →
  SFleb (of_int 50) (default nan metrics.(sharpness_score)) = true →
  (default false metrics.(motion_flag) = true →
   default false metrics.(motion_detected) = true) →
  evaluate_video_acceptance metrics issues stats = Some (true, [], stats).
Proof.
  intros Hiss Hw Hh Hlo Hhi Hsh Hmotion.
  assert (reasons_of metrics issues = []) as Hnil.
  { unfold reasons_of, is_corrupted, low_resolution, too_dark, too_bright, blurry,
      insufficient_motion, lt, gt, MIN_FRAME_WIDTH, MIN_FRAME_HEIGHT, MIN_BRIGHTNESS,
      MAX_BRIGHTNESS, MIN_SHARPNESS_SCORE.
    rewrite (bool_decide_eq_false_2 _ Hiss), (SFleb_not_nan_r _ _ Hlo),
      (SFleb_not_nan_r _ _ Hsh), (SFleb_not_SFltb _ _ Hlo), (SFleb_not_SFltb _ _ Hhi),
      (SFleb_not_SFltb _ _ Hsh), (proj2 (Z.ltb_ge _ _) Hw), (proj2 (Z.ltb_ge _ _) Hh).
    simpl.
    destruct (default false (motion_flag metrics)); [|by rewrite andb_false_r].
    by rewrite Hmotion. }
  destruct (evaluate_video_acceptance_returns metrics issues stats)
    as [[[accepted reasons] stats'] Hrun].
  { rewrite Hnil. by intros key ?%elem_of_nil. }
  pose proof Hrun as (-> & -> & -> & _)%evaluate_video_acceptance_inv.
  by rewrite Hrun, Hnil.
Qed.

(** ** The cleaning loop, file by file *)

Lemma joined_reasons_not_passed metrics issues :
  reasons_of metrics issues ≠ [] →
  match reasons_of metrics issues with
  | [] => "passed_all_checks"
  | _ => String.concat ", " (reasons_of metrics issues)
  end ≠ "passed_all_checks".
Proof.
  unfold reasons_of.
  destruct (is_corrupted metrics issues), (low_resolution metrics), (too_dark metrics),
    (too_bright metrics), (blurry metrics), (insufficient_motion metrics); simpl.
  all: intros Hne; try done.
Qed.

Lemma accepted_of_accepted e log :
  log_decision e = "accepted" →
  accepted_of (e :: log) = (log_exercise e, log_file e) :: accepted_of log.
Proof. intros Hd. unfold accepted_of. simpl. by rewrite Hd. Qed.

Lemma accepted_of_rejected e log :
  log_decision e = "rejected" → accepted_of (e :: log) = accepted_of log.
Proof. intros Hd. unfold accepted_of. simpl. by rewrite Hd. Qed.

Lemma field_insert_eq (stats : gmap string pyval) key n :
  field key (<[key := PyInt n]> stats) = n.
Proof. unfold field. by rewrite lookup_insert_eq. Qed.

Lemma field_insert_ne (stats : gmap string pyval) key key' v :
  key ≠ key' → field key' (<[key := v]> stats) = field key' stats.
Proof. intros Hne. unfold field. by rewrite lookup_insert_ne. Qed.

Lemma field_foldl_bump (stats : gmap string pyval) ks key :
  NoDup ks → (∃ n, stats !! key = Some (PyInt n)) →
  field key (foldl bump stats ks)
  = field key stats + (if decide (key ∈ ks) then 1 else 0).
Proof.
  intros Hnd [n Hn]. rewrite (field_int _ _ _ Hn). case_decide as Hin.
  - by rewrite (field_int _ _ (n + 1) (foldl_bump_in _ _ _ _ Hnd Hin Hn)).
  - unfold field. rewrite foldl_bump_notin, Hn by done. lia.
Qed.

Section FileByFile.
Context `{Vision}.
Variable MOTION_FLAGS : gmap string bool.

Lemma process_video_effect folder st file (cap : VideoCapture) :
  row_ok st.(exercise_stats) →
  ∃ st' entry,
    process_video MOTION_FLAGS folder st (file, cap) = Some st'
    ∧ row_ok st'.(exercise_stats)
    ∧ st'.(exercise_stats) !! "Exercise" = st.(exercise_stats) !! "Exercise"
    ∧ st'.(any_video) = true
    ∧ st'.(folder_log) = st.(folder_log) ++ [entry]
    ∧ log_exercise entry = folder ∧ log_file entry = file
    ∧ field "total_videos" st'.(exercise_stats)
      = field "total_videos" st.(exercise_stats) + 1
    ∧ ((log_decision entry = "accepted" ∧ log_reasons entry = "passed_all_checks"
        ∧ st'.(folder_copied) = st.(folder_copied) ++ [(folder, file)]
        ∧ field "accepted_videos" st'.(exercise_stats)
          = field "accepted_videos" st.(exercise_stats) + 1
        ∧ field "rejected_videos" st'.(exercise_stats)
          = field "rejected_videos" st.(exercise_stats)
        ∧ ∀ c, c ∈ reason_counters →
            field c st'.(exercise_stats) = field c st.(exercise_stats))
       ∨ (log_decision entry = "rejected" ∧ log_reasons entry ≠ "passed_all_checks"
          ∧ st'.(folder_copied) = st.(folder_copied)
          ∧ field "accepted_videos" st'.(exercise_stats)
            = field "accepted_videos" st.(exercise_stats)
          ∧ field "rejected_videos" st'.(exercise_stats)
            = field "rejected_videos" st.(exercise_stats) + 1
          ∧ ∀ c, c ∈ reason_counters →
              field c st.(exercise_stats) ≤ field c st'.(exercise_stats)
              ≤ field c st.(exercise_stats) + 1)).
Proof.
  intros Hok.
  destruct (proj2 Hok "total_videos") as [t Ht]; [elem_here|].
  destruct (proj2 Hok "accepted_videos") as [a Ha]; [elem_here|].
  destruct (proj2 Hok "rejected_videos") as [r Hr]; [elem_here|].
  unfold process_video.
  rewrite (add_to_int _ t) by done. cbn [mbind option_bind].
  destruct (analyze_video_quality_returns MOTION_FLAGS cap folder)
    as [[[metrics issues] trace] ->]. cbn [mbind option_bind].
  set (stats1 := <["total_videos" := PyInt (t + 1)]> (exercise_stats st)).
  assert (row_ok stats1) as Hok1.
  { apply row_ok_insert; [done|]. elem_here. }
  rewrite (evaluate_video_acceptance_run _ _ _ (row_ok_reason_counters _ Hok1)).
  cbn [mbind option_bind].
  set (ks := counter_of <$> reasons_of metrics issues).
  set (stats2 := foldl bump stats1 ks).
  assert (row_ok stats2) as Hok2 by by apply row_ok_foldl_bump.
  assert (∀ key, key ∉ reason_counters → stats2 !! key = stats1 !! key) as Hsame.
  { intros key Hkey. apply foldl_bump_notin. by intros Hin%counter_of_reasons. }
  assert (∀ c, c ∈ reason_counters →
            field c stats2
            = field c (exercise_stats st) + (if decide (c ∈ ks) then 1 else 0)) as Hcnt.
  { intros c Hc. unfold stats2. rewrite field_foldl_bump.
    - unfold stats1. rewrite field_insert_ne; [done|].
      intros <-. by apply (not_reason_counter "total_videos"); [elem_here|].
    - apply NoDup_reasons_of.
    - apply (proj2 Hok1). by apply reason_counters_columns. }
  assert (stats2 !! "total_videos" = Some (PyInt (t + 1))) as Ht2.
  { rewrite Hsame by (apply not_reason_counter; elem_here). apply lookup_insert_eq. }
  assert (stats2 !! "accepted_videos" = Some (PyInt a)) as Ha2.
  { rewrite Hsame by (apply not_reason_counter; elem_here).
    unfold stats1. by rewrite lookup_insert_ne. }
  assert (stats2 !! "rejected_videos" = Some (PyInt r)) as Hr2.
  { rewrite Hsame by (apply not_reason_counter; elem_here).
    unfold stats1. by rewrite lookup_insert_ne. }
  assert (stats2 !! "Exercise" = exercise_stats st !! "Exercise") as Hex2.
  { rewrite Hsame by (by apply (bool_decide_unpack _); vm_compute).
    unfold stats1. by rewrite lookup_insert_ne. }
  assert (∀ c, c ∈ reason_counters → c ≠ "accepted_videos" ∧ c ≠ "rejected_videos")
    as Hother.
  { intros c Hc. split; intros ->; revert Hc; apply not_reason_counter; elem_here. }
  destruct (bool_decide (reasons_of metrics issues = [])) eqn:Hdec.
  - apply bool_decide_eq_true in Hdec.
    rewrite (add_to_int _ a) by done. cbn [mbind option_bind].
    eexists _, _. split; [reflexivity|].
    cbn [exercise_stats any_video folder_log folder_copied log_exercise log_file
         log_decision log_reasons].
    split_and!; try done.
    + apply row_ok_insert; [done | elem_here].
    + by rewrite lookup_insert_ne.
    + rewrite field_insert_ne by done.
      by rewrite (field_int _ _ _ Ht2), (field_int _ _ _ Ht).
    + left. split_and!; try done.
      * by rewrite Hdec.
      * by rewrite field_insert_eq, (field_int _ _ _ Ha).
      * rewrite field_insert_ne by done.
        by rewrite (field_int _ _ _ Hr2), (field_int _ _ _ Hr).
      * intros c Hc. destruct (Hother c Hc) as [Hc1 Hc2].
        rewrite field_insert_ne, Hcnt by done.
        unfold ks. rewrite Hdec.
        case_decide as Hin; [simpl in Hin; by apply elem_of_nil in Hin | lia].
  - apply bool_decide_eq_false in Hdec.
    rewrite (add_to_int _ r) by done. cbn [mbind option_bind].
    eexists _, _. split; [reflexivity|].
    cbn [exercise_stats any_video folder_log folder_copied log_exercise log_file
         log_decision log_reasons].
    split_and!; try done.
    + apply row_ok_insert; [done | elem_here].
    + by rewrite lookup_insert_ne.
    + rewrite field_insert_ne by done.
      by rewrite (field_int _ _ _ Ht2), (field_int _ _ _ Ht).
    + right. split_and!; try done.
      * by apply joined_reasons_not_passed.
      * rewrite field_insert_ne by done.
        by rewrite (field_int _ _ _ Ha2), (field_int _ _ _ Ha).
      * by rewrite field_insert_eq, (field_int _ _ _ Hr).
      * intros c Hc. destruct (Hother c Hc) as [Hc1 Hc2].
        rewrite field_insert_ne, Hcnt by done. case_decide; lia.
Qed.

Lemma video_names_cons folder file (cap : VideoCapture) files :
  video_names folder ((file, cap) :: files)
  = if is_video file then (folder, file) :: video_names folder files
    else video_names folder files.
Proof.
  unfold video_names. rewrite filter_cons. simpl.
  destruct (is_video file); by case_decide.
Qed.

Lemma process_files_effect folder files st :
  row_ok st.(exercise_stats) →
  ∃ fs new,
    process_files MOTION_FLAGS folder st files = Some fs
    ∧ row_ok fs.(exercise_stats)
    ∧ fs.(exercise_stats) !! "Exercise" = st.(exercise_stats) !! "Exercise"
    ∧ fs.(any_video) = st.(any_video) || bool_decide (new ≠ [])
    ∧ fs.(folder_log) = st.(folder_log) ++ new
    ∧ logged new = video_names folder files
    ∧ Forall entry_ok new
    ∧ fs.(folder_copied) = st.(folder_copied) ++ accepted_of new
    ∧ field "total_videos" fs.(exercise_stats)
      = field "total_videos" st.(exercise_stats) + Z.of_nat (length new)
    ∧ field "accepted_videos" fs.(exercise_stats)
      = field "accepted_videos" st.(exercise_stats) + Z.of_nat (length (accepted_of new))
    ∧ field "rejected_videos" fs.(exercise_stats)
      = field "rejected_videos" st.(exercise_stats)
        + (Z.of_nat (length new) - Z.of_nat (length (accepted_of new)))
    ∧ (reasons_bounded st.(exercise_stats) → reasons_bounded fs.(exercise_stats)).
Proof.
  revert st. induction files as [|[file cap] files IH]; intros st Hok.
  { exists st, []. simpl. rewrite !app_nil_r, orb_false_r.
    split_and!; try done; try lia. }
  rewrite process_files_cons, video_names_cons. unfold process_file. cbn [fst].
  destruct (is_video file) eqn:Hvid; cbn [negb mbind option_bind].
  2: { apply IH, Hok. }
  destruct (process_video_effect folder st file cap Hok)
    as (st1 & entry & -> & Hok1 & Hex1 & Hany1 & Hlog1 & Hfolder & Hfile & Ht1 & Hcase).
  cbn [mbind option_bind].
  destruct (IH st1 Hok1)
    as (fs & new & Hrun & Hokf & Hexf & Hanyf & Hlogf & Hnames & Hentries & Hcopied
        & Htf & Haf & Hrf & Hbf).
  exists fs, (entry :: new). rewrite Hrun.
  assert (entry_ok entry) as Hentry.
  { destruct Hcase as [(? & ? & _)|(? & ? & _)]; [by left | by right]. }
  split_and!; try done.
  - congruence.
  - rewrite Hanyf, Hany1. simpl. by rewrite orb_true_r.
  - rewrite Hlogf, Hlog1. by rewrite <- app_assoc.
  - unfold logged. rewrite fmap_cons. fold (logged new). rewrite Hnames, Hfolder, Hfile.
    done.
  - by constructor.
  - rewrite Hcopied.
    destruct Hcase as [(Hd & _ & -> & _)|(Hd & _ & -> & _)].
    + by rewrite (accepted_of_accepted _ _ Hd), Hfolder, Hfile, <- app_assoc.
    + by rewrite (accepted_of_rejected _ _ Hd).
  - rewrite Htf, Ht1, length_cons. lia.
  - rewrite Haf.
    destruct Hcase as [(Hd & _ & _ & -> & _)|(Hd & _ & _ & -> & _)].
    + rewrite (accepted_of_accepted _ _ Hd), length_cons. lia.
    + rewrite (accepted_of_rejected _ _ Hd). lia.
  - rewrite Hrf.
    destruct Hcase as [(Hd & _ & _ & _ & -> & _)|(Hd & _ & _ & _ & -> & _)].
    + rewrite (accepted_of_accepted _ _ Hd), !length_cons. lia.
    + rewrite (accepted_of_rejected _ _ Hd), length_cons. lia.
  - intros Hb. apply Hbf. intros c Hc. specialize (Hb c Hc).
    destruct Hcase as [(_ & _ & _ & _ & -> & Hsame)|(_ & _ & _ & _ & -> & Hstep)].
    + by rewrite Hsame.
    + specialize (Hstep c Hc). lia.
Qed.

End FileByFile.

(** ** The cleaning loop, folder by folder *)

Lemma accepted_of_app log1 log2 :
  accepted_of (log1 ++ log2) = accepted_of log1 ++ accepted_of log2.
Proof. apply omap_app. Qed.

Lemma field_default name col :
  col ∈ counter_columns → field col (default_stats name) = 0.
Proof. intros Hcol. by rewrite (field_int _ _ 0 (default_stats_counter name col Hcol)). Qed.

Lemma reasons_bounded_default name : reasons_bounded (default_stats name).
Proof.
  intros c Hc.
  rewrite (field_int _ _ 0 (default_stats_counter name c (reason_counters_columns c Hc))).
  by rewrite (field_int _ _ 0 (default_stats_counter name "rejected_videos" ltac:(elem_here))).
Qed.

Lemma audit_ok_initial : audit_ok (mkRun [] [] [] (default_stats "ALL_EXERCISES")).
Proof.
  split_and!; try done; try (by constructor). apply reasons_bounded_default.
Qed.

Section FolderByFolder.
Context `{Vision}.
Variable MOTION_FLAGS : gmap string bool.

Lemma video_names_nil_iff folder (files : list (string * VideoCapture)) :
  video_names folder files = [] ↔ existsb (λ e, is_video e.1) files = false.
Proof.
  induction files as [|[file cap] files IH]; [done|].
  rewrite video_names_cons. simpl. destruct (is_video file); simpl; [|done].
  split; discriminate.
Qed.

Lemma process_folder_effect run (dir : string * list (string * VideoCapture)) :
  run_ok run → audit_ok run →
  ∃ run',
    process_folder MOTION_FLAGS run dir = Some run'
    ∧ run_ok run' ∧ audit_ok run'
    ∧ logged run'.(VIDEO_LOG) = logged run.(VIDEO_LOG) ++ video_names dir.1 dir.2
    ∧ exercise_names run'.(overall_exercise_stats)
      = exercise_names run.(overall_exercise_stats)
        ++ (if existsb (λ e, is_video e.1) dir.2 then [Some (PyStr dir.1)] else []).
Proof.
  intros Hrun Haudit. destruct dir as [folder files].
  destruct (process_folder_spec MOTION_FLAGS run (folder, files) Hrun)
    as (run' & Hstep & Hrun').
  exists run'. split; [done|]. split; [done|].
  unfold process_folder in Hstep. cbn [fst snd].
  destruct files as [|entry files].
  { injection Hstep as <-. simpl. rewrite !app_nil_r. by split_and!. }
  set (all := entry :: files) in *.
  change (length all =? 0)%nat with false in Hstep. cbn iota in Hstep.
  destruct (process_files_effect MOTION_FLAGS folder all
              (mkFolder (default_stats folder) false run.(VIDEO_LOG) run.(copied)))
    as (fs & new & Hfiles & Hokf & Hexf & Hanyf & Hlogf & Hnames & Hentries & Hcopied
        & Htf & Haf & Hrf & Hbf); [apply default_stats_row_ok|].
  rewrite Hfiles in Hstep. cbn [mbind option_bind] in Hstep.
  cbn [exercise_stats any_video folder_log folder_copied] in *.
  specialize (Hbf (reasons_bounded_default folder)).
  rewrite field_default in Htf by elem_here.
  rewrite field_default in Haf by elem_here.
  rewrite field_default in Hrf by elem_here.
  destruct Haudit as (Hcop & Hent & Ht & Ha & Hr & Hb & Hbs).
  rewrite Hanyf in Hstep. cbn [orb] in Hstep.
  destruct (bool_decide (new ≠ [])) eqn:Hnew.
  - apply bool_decide_eq_true in Hnew.
    assert (existsb (λ e : string * VideoCapture, is_video e.1) all = true) as ->.
    { apply not_false_iff_true. intros Hno.
      apply (proj2 (video_names_nil_iff folder all)) in Hno.
      rewrite Hno in Hnames. by destruct new. }
    pose proof Hrun as (Htot & Hrows & Hbals & Hsum).
    destruct (fold_into_totals_spec run.(totals) fs.(exercise_stats) Htot (proj2 Hokf))
      as (totals' & Hfold & Htot' & Hsum').
    rewrite Hfold in Hstep. cbn [mbind option_bind] in Hstep. injection Hstep as <-.
    unfold audit_ok. cbn [VIDEO_LOG copied overall_exercise_stats totals].
    assert (∀ col, col ∈ counter_columns →
              field col totals' = field col run.(totals) + field col fs.(exercise_stats))
      as Hfield.
    { intros col Hcol. by rewrite (field_int _ _ _ (Hsum' col Hcol)). }
    split_and!.
    + by rewrite Hcopied, Hlogf, accepted_of_app, Hcop.
    + rewrite Hlogf. by apply Forall_app.
    + rewrite Hfield, Hlogf, length_app by elem_here. lia.
    + rewrite Hfield, Hcopied, length_app by elem_here. lia.
    + rewrite Hfield, Hlogf, Hcopied, !length_app by elem_here. lia.
    + intros c Hc. specialize (Hb c Hc). specialize (Hbf c Hc).
      rewrite Hfield by by apply reason_counters_columns.
      rewrite (Hfield "rejected_videos") by elem_here. lia.
    + apply Forall_app. split; [done | constructor; [exact Hbf | constructor]].
    + rewrite Hlogf. unfold logged. rewrite fmap_app. f_equal. exact Hnames.
    + unfold exercise_names. rewrite fmap_app. simpl. rewrite Hexf. done.
  - apply bool_decide_eq_false in Hnew.
    assert (new = []) as -> by (by destruct new; [|exfalso; apply Hnew]).
    assert (existsb (λ e : string * VideoCapture, is_video e.1) all = false) as ->.
    { apply (proj1 (video_names_nil_iff folder all)). by rewrite <- Hnames. }
    injection Hstep as <-.
    unfold audit_ok. cbn [VIDEO_LOG copied overall_exercise_stats totals].
    rewrite Hlogf, Hcopied, <- Hnames. simpl. rewrite !app_nil_r in *.
    by split_and!.
Qed.

Lemma walk_effect walk run :
  run_ok run → audit_ok run →
  ∃ run',
    for_each (process_folder MOTION_FLAGS) run walk = Some run'
    ∧ run_ok run' ∧ audit_ok run'
    ∧ logged run'.(VIDEO_LOG) = logged run.(VIDEO_LOG) ++ walk_videos walk
    ∧ exercise_names run'.(overall_exercise_stats)
      = exercise_names run.(overall_exercise_stats)
        ++ ((λ name, Some (PyStr name)) <$> folders_with_videos walk).
Proof.
  revert run. induction walk as [|dir walk IH]; intros run Hrun Haudit.
  { exists run. simpl. rewrite !app_nil_r. by split_and!. }
  destruct (process_folder_effect run dir Hrun Haudit)
    as (run1 & Hstep & Hrun1 & Haudit1 & Hlog1 & Hnames1).
  destruct (IH run1 Hrun1 Haudit1) as (run' & Hrest & Hrun' & Haudit' & Hlog' & Hnames').
  exists run'. simpl. rewrite Hstep. cbn [mbind option_bind].
  split_and!; try done.
  - rewrite Hlog', Hlog1. unfold walk_videos. simpl. by rewrite <- app_assoc.
  - rewrite Hnames', Hnames1, <- app_assoc. f_equal.
    unfold folders_with_videos. simpl. by destruct (existsb _ _).
Qed.

Lemma clean_dataset_audit walk :
  ∃ run table,
    clean_dataset MOTION_FLAGS walk = Some (run, table)
    ∧ run_ok run ∧ audit_ok run
    ∧ logged run.(VIDEO_LOG) = walk_videos walk
    ∧ exercise_names run.(overall_exercise_stats)
      = (λ name, Some (PyStr name)) <$> folders_with_videos walk.
Proof.
  destruct (walk_effect walk _ run_ok_initial audit_ok_initial)
    as (run & Hwalk & Hrun & Haudit & Hlog & Hnames).
  unfold clean_dataset. rewrite Hwalk. cbn [mbind option_bind].
  destruct (generate_cleaning_report _ _) as [table|] eqn:Hrep.
  - by exists run, table.
  - destruct (clean_dataset_ok MOTION_FLAGS walk) as (run2 & table & Hclean & _).
    unfold clean_dataset in Hclean. rewrite Hwalk in Hclean.
    cbn [mbind option_bind] in Hclean. by rewrite Hrep in Hclean.
Qed.

End FolderByFolder.

Section CleaningProperties.
Context `{Vision}.
Variable MOTION_FLAGS : gmap string bool.

Lemma process_files_no_video folder (files : list (string * VideoCapture)) st :
  existsb (λ e, is_video e.1) files = false →
  process_files MOTION_FLAGS folder st files = Some st.
Proof.
  induction files as [|entry files IH]; [done|]. simpl.
  intros [Hentry Hrest]%orb_false_iff.
  rewrite process_files_cons. unfold process_file. rewrite Hentry.
  cbn [negb mbind option_bind]. by apply IH.
Qed.

(** X15. Files whose name does not end in a video extension take no
    part in the processing of a folder: the outcome is that of the
    folder with those files removed. *)
Theorem other_files_are_skipped folder (files : list (string * VideoCapture)) st :
  process_files MOTION_FLAGS folder st files
  = process_files MOTION_FLAGS folder st (filter (λ e, is_video e.1 = true) files).
Proof.
  revert st. induction files as [|entry files IH]; intros st; [done|].
  rewrite filter_cons. destruct (is_video entry.1) eqn:Hvid.
  - rewrite decide_True by done. rewrite !process_files_cons.
    destruct (process_file MOTION_FLAGS folder st entry); [apply IH | done].
  - rewrite decide_False by done. rewrite process_files_cons.
    unfold process_file. rewrite Hvid. cbn [negb mbind option_bind]. apply IH.
Qed.

(** X16. A folder without a single video file, empty or not, leaves
    the run as it was: no record, no log entry, no copy, the same
    totals. *)
Theorem folder_without_videos_is_skipped run folder
    (files : list (string * VideoCapture)) :
  existsb (λ e, is_video e.1) files = false →
  process_folder MOTION_FLAGS run (folder, files) = Some run.
Proof.
  intros Hnone. unfold process_folder.
  destruct (length files =? 0)%nat; [done|].
  rewrite (process_files_no_video _ _ _ Hnone). cbn [mbind option_bind any_video].
  by destruct run.
Qed.

(** X17. The log of a run has one record for every video file of the
    walk, under the name of its folder, in the order of processing;
    no other file is logged. *)
Theorem log_lists_every_video walk :
  ∃ run table,
    clean_dataset MOTION_FLAGS walk = Some (run, table)
    ∧ logged run.(VIDEO_LOG) = walk_videos walk.
Proof.
  destruct (clean_dataset_audit MOTION_FLAGS walk)
    as (run & table & Hrun & _ & _ & Hlog & _).
  by exists run, table.
Qed.

(** X18. The files copied to the cleaned tree are exactly the files
    whose log record says "accepted", in the same order; a record is
    accepted exactly when its reasons column is "passed_all_checks",
    and is otherwise "rejected". *)
Theorem copies_are_the_accepted_records walk :
  ∃ run table,
    clean_dataset MOTION_FLAGS walk = Some (run, table)
    ∧ run.(copied) = accepted_of run.(VIDEO_LOG)
    ∧ Forall entry_ok run.(VIDEO_LOG).
Proof.
  destruct (clean_dataset_audit MOTION_FLAGS walk)
    as (run & table & Hrun & _ & (Hcopied & Hentries & _) & _).
  by exists run, table.
Qed.

(** X19. At the end of a run the totals count the log:
    [total_videos] is the number of log records, [accepted_videos]
    the number of copied files, [rejected_videos] the difference. *)
Theorem totals_count_the_log walk :
  ∃ run table,
    clean_dataset MOTION_FLAGS walk = Some (run, table)
    ∧ run.(totals) !! "total_videos" = Some (PyInt (Z.of_nat (length run.(VIDEO_LOG))))
    ∧ run.(totals) !! "accepted_videos" = Some (PyInt (Z.of_nat (length run.(copied))))
    ∧ run.(totals) !! "rejected_videos"
      = Some (PyInt (Z.of_nat (length run.(VIDEO_LOG))
                     - Z.of_nat (length run.(copied)))).
Proof.
  destruct (clean_dataset_audit MOTION_FLAGS walk)
    as (run & table & Hrun & Hok & (_ & _ & Ht & Ha & Hr & _) & _).
  exists run, table. split; [done|].
  destruct Hok as ((Hints & _) & _).
  destruct (Hints "total_videos") as [t Ht']; [elem_here|].
  destruct (Hints "accepted_videos") as [a Ha']; [elem_here|].
  destruct (Hints "rejected_videos") as [r Hr']; [elem_here|].
  rewrite (field_int _ _ _ Ht') in Ht. rewrite (field_int _ _ _ Ha') in Ha.
  rewrite (field_int _ _ _ Hr') in Hr. by rewrite Ht', Ha', Hr', Ht, Ha, Hr.
Qed.

(** X20. The per-exercise records of a run are named after the
    folders that hold at least one video file, one record per such
    folder, in the order of the walk. *)
Theorem records_follow_the_folders walk :
  ∃ run table,
    clean_dataset MOTION_FLAGS walk = Some (run, table)
    ∧ exercise_names run.(overall_exercise_stats)
      = (λ name, Some (PyStr name)) <$> folders_with_videos walk.
Proof.
  destruct (clean_dataset_audit MOTION_FLAGS walk)
    as (run & table & Hrun & _ & _ & _ & Hnames).
  by exists run, table.
Qed.

(** X21. In every record and in the totals, no reason counter is
    negative or exceeds [rejected_videos]: an accepted video moves no
    reason counter, a rejected one moves each by at most one. *)
Theorem reason_counters_within_rejected walk :
  ∃ run table,
    clean_dataset MOTION_FLAGS walk = Some (run, table)
    ∧ reasons_bounded run.(totals)
    ∧ Forall reasons_bounded run.(overall_exercise_stats).
Proof.
  destruct (clean_dataset_audit MOTION_FLAGS walk)
    as (run & table & Hrun & _ & (_ & _ & _ & _ & _ & Hb & Hbs) & _).
  by exists run, table.
Qed.

End CleaningProperties.

Section ReportOfARun.
Context `{Vision}.
Variable MOTION_FLAGS : gmap string bool.

Lemma exercise_names_select rows (df : list Stats) :
  Forall2 (λ row d : Stats, ∀ col, col ∈ report_columns → d !! col = row !! col)
          rows df →
  exercise_names df = exercise_names rows.
Proof.
  induction 1 as [|row d rows df Hcols _ IH]; [done|].
  unfold exercise_names in *. rewrite !fmap_cons, IH. f_equal.
  apply Hcols. elem_here.
Qed.

Lemma length_accepted_of log : (length (accepted_of log) ≤ length log)%nat.
Proof.
  induction log as [|e log IH]; [done|]. unfold accepted_of in *. cbn.
  destruct (String.eqb _ _); cbn; lia.
Qed.

(** In a state that a run can reach, no counter of the totals is
    negative or above the number of log records. *)
Lemma totals_within_log run col :
  audit_ok run → col ∈ counter_columns →
  0 ≤ field col run.(totals) ≤ Z.of_nat (length run.(VIDEO_LOG)).
Proof.
  intros (Hcopied & _ & Ht & Ha & Hr & Hbound & _) Hcol.
  pose proof (length_accepted_of run.(VIDEO_LOG)) as Hlen. rewrite <- Hcopied in Hlen.
  unfold counter_columns in Hcol.
  apply elem_of_cons in Hcol as [->|Hcol]; [lia|].
  apply elem_of_cons in Hcol as [->|Hcol]; [lia|].
  apply elem_of_cons in Hcol as [->|Hcol]; [lia|].
  specialize (Hbound col Hcol). lia.
Qed.

(** X22. The report of a run: when no folder of the walk holds a
    video file there is no table; otherwise the table has one row per
    folder with video files, named after it and in the order of the
    walk, then a row "TOTAL" whose counters - for a walk of fewer
    than [2 ^ 63] video files, the range of the table's columns - are
    those of the running totals that the summary prints. *)
Theorem report_rows_follow_the_folders walk :
  ∃ run table,
    clean_dataset MOTION_FLAGS walk = Some (run, table)
    ∧ match folders_with_videos walk with
      | [] => table = NoStats
      | names =>
          ∃ df total_row,
            table = Table (df ++ [total_row])
            ∧ exercise_names df = (λ name, Some (PyStr name)) <$> names
            ∧ total_row !! "Exercise" = Some (PyStr "TOTAL")
            ∧ (Z.of_nat (length (walk_videos walk)) ≤ int64_max →
               Forall (λ col, total_row !! col = run.(totals) !! col) counter_columns)
      end.
Proof.
  destruct (clean_dataset_audit MOTION_FLAGS walk)
    as (run & table & Hclean & Hok & Haudit & Hlog & Hnames).
  exists run, table. split; [done|].
  unfold clean_dataset in Hclean.
  destruct (for_each _ _ walk) as [run'|]; [|done].
  cbn [mbind option_bind] in Hclean.
  destruct (generate_cleaning_report _ _) as [table'|] eqn:Hrep; [|done].
  injection Hclean as -> ->.
  destruct (folders_with_videos walk) as [|name names] eqn:Hfolders.
  - destruct (overall_exercise_stats run); [|done].
    cbn in Hrep. by injection Hrep as <-.
  - destruct (generate_cleaning_report_spec run.(overall_exercise_stats) run.(totals))
      as (df & total_row & Hrep' & Hsame & Htotal & Hsums).
    { intros Hnil. by rewrite Hnil in Hnames. }
    { apply Hok. }
    rewrite Hrep' in Hrep. injection Hrep as <-.
    exists df, total_row. split_and!; [done| |done|].
    + by rewrite (exercise_names_select _ _ Hsame).
    + intros Hfew. apply Forall_forall. intros col Hcol. rewrite (Hsums col Hcol).
      destruct Hok as (_ & _ & _ & Hsum). rewrite (Hsum col Hcol).
      do 2 f_equal. apply wrap_int64_id.
      pose proof (totals_within_log run col Haudit Hcol) as Hwithin.
      rewrite (field_int _ _ _ (Hsum col Hcol)) in Hwithin.
      assert (length run.(VIDEO_LOG) = length (walk_videos walk)) as Hlen.
      { rewrite <- Hlog. unfold logged. by rewrite length_fmap. }
      rewrite Hlen in Hwithin. unfold int64_min. lia.
Qed.

End ReportOfARun.

(** ** File names *)

Lemma lower_ascii_idemp c : lower_ascii (lower_ascii c) = lower_ascii c.
Proof. by destruct c as [[] [] [] [] [] [] [] []]. Qed.

Lemma lower_idemp s : lower (lower s) = lower s.
Proof. induction s as [|c s IH]; [done|]. simpl. by rewrite lower_ascii_idemp, IH. Qed.

Lemma lower_app s t : lower (s +:+ t) = lower s +:+ lower t.
Proof. induction s as [|c s IH]; [done|]. simpl. by rewrite IH. Qed.

Lemma length_app_string s t :
  String.length (s +:+ t) = (String.length s + String.length t)%nat.
Proof. induction s as [|c s IH]; [done|]. simpl. by rewrite IH. Qed.

Lemma substring_all s : substring 0 (String.length s) s = s.
Proof. induction s as [|c s IH]; [done|]. simpl. by rewrite IH. Qed.

Lemma substring_skip stem k s :
  substring (String.length stem) k (stem +:+ s) = substring 0 k s.
Proof. induction stem as [|c stem IH]; [done|]. simpl. apply IH. Qed.

Lemma substring_cut s m :
  (m ≤ String.length s)%nat →
  s = substring 0 m s +:+ substring m (String.length s - m) s.
Proof.
  revert m. induction s as [|c s IH]; intros m Hm.
  { by destruct m. }
  destruct m as [|m]; simpl in *.
  - by rewrite substring_all.
  - rewrite (IH m) at 1 by lia. reflexivity.
Qed.

Lemma endswith_iff s suffix :
  endswith s suffix = true ↔ ∃ stem, s = stem +:+ suffix.
Proof.
  unfold endswith. rewrite andb_true_iff, Nat.leb_le, String.eqb_eq. split.
  - intros [Hle Hsub]. exists (substring 0 (String.length s - String.length suffix) s).
    rewrite <- Hsub at 2.
    rewrite (substring_cut s (String.length s - String.length suffix)) at 1 by lia.
    do 2 f_equal. lia.
  - intros [stem ->]. rewrite length_app_string. split; [lia|].
    replace (String.length stem + String.length suffix - String.length suffix)%nat
      with (String.length stem) by lia.
    by rewrite substring_skip, substring_all.
Qed.

Lemma is_video_iff file :
  is_video file = true
  ↔ ∃ stem ext, ext ∈ video_extensions ∧ lower file = stem +:+ ext.
Proof.
  unfold is_video. rewrite existsb_exists. split.
  - intros (ext & Hin & [stem Hstem]%endswith_iff).
    exists stem, ext. split; [by apply list_elem_of_In | done].
  - intros (stem & ext & Hin & Hstem). exists ext.
    split; [by apply list_elem_of_In|]. apply endswith_iff. by exists stem.
Qed.

(** X23. A file counts as a video exactly when its name, with the
    ASCII letters put in lower case, ends in ".mp4", ".avi" or
    ".mov"; the name may consist of the extension alone. *)
Theorem video_iff_lowered_name_has_extension file :
  is_video file = true
  ↔ ∃ stem, lower file = stem +:+ ".mp4" ∨ lower file = stem +:+ ".avi"
            ∨ lower file = stem +:+ ".mov".
Proof.
  rewrite is_video_iff. split.
  - intros (stem & ext & Hin & Hstem). exists stem.
    unfold video_extensions in Hin.
    apply elem_of_cons in Hin as [->|Hin]; [by left|].
    apply elem_of_cons in Hin as [->|Hin]; [by right; left|].
    apply elem_of_cons in Hin as [->|Hin]; [by right; right|].
    by apply elem_of_nil in Hin.
  - intros (stem & [Hs|[Hs|Hs]]); eexists stem, _; (split; [|exact Hs]); elem_here.
Qed.

(** X24. The case of the letters of a name plays no part: a name
    whose extension is a video extension in any mix of upper and lower
    case is a video, whatever comes before the extension. *)
Theorem extension_case_is_ignored stem ext :
  lower ext ∈ video_extensions → is_video (stem +:+ ext) = true.
Proof.
  intros Hext. apply is_video_iff. exists (lower stem), (lower ext).
  split; [done|]. apply lower_app.
Qed.

(** ** Copying a video *)

Lemma joinpath_relative self other :
  absolute other = false →
  joinpath self other = mkPath (absolute self) (parts self ++ parts other).
Proof. intros Hother. unfold joinpath. by rewrite Hother. Qed.

Lemma relative_to_prefix root_absolute root_parts rest :
  relative_to (mkPath root_absolute (root_parts ++ rest))
              (mkPath root_absolute root_parts)
  = Some (mkPath false rest).
Proof.
  unfold relative_to. cbn [absolute parts].
  rewrite bool_decide_eq_true_2 by done.
  rewrite bool_decide_eq_true_2 by apply prefix_app_r, reflexivity.
  cbn [andb]. by rewrite drop_app_length.
Qed.

Lemma relative_to_joinpath root rel :
  absolute rel = false → relative_to (joinpath root rel) root = Some rel.
Proof.
  intros Hrel. unfold joinpath, relative_to. rewrite Hrel. cbn [absolute parts].
  rewrite bool_decide_eq_true_2 by done.
  rewrite bool_decide_eq_true_2 by apply prefix_app_r, reflexivity.
  cbn [andb]. rewrite drop_app_length. f_equal. destruct rel; simpl in *. by subst.
Qed.

Lemma relative_to_relative self other rel :
  relative_to self other = Some rel → absolute rel = false.
Proof. unfold relative_to. case_match; [|done]. by intros [= <-]. Qed.

(** X25. When the copy goes ahead, the target lies under the
    destination root at the very path that the source file has under
    the source root; the directory asked for is the parent of the
    target, and it is asked for before the copy. *)
Theorem copy_keeps_relative_path source_file source_root destination_root requests :
  copy_video_with_structure source_file source_root destination_root = Some requests →
  ∃ target,
    requests = [Mkdir (parent target); Copy2 source_file target]
    ∧ relative_to target destination_root = relative_to source_file source_root.
Proof.
  unfold copy_video_with_structure.
  destruct (relative_to source_file source_root) as [rel|] eqn:Hrel; [|done].
  cbn [mbind option_bind]. intros [= <-].
  exists (joinpath destination_root rel). split; [done|].
  apply relative_to_joinpath. by eapply relative_to_relative.
Qed.

(** X26. For a file [name] found by the walk in the folder [folder]
    under the source root, the copy asks for the directory [folder]
    under the destination root and then copies the file there under
    the same name. *)
Theorem copy_of_a_walked_file source_root destination_root folder name :
  absolute folder = false →
  copy_video_with_structure
    (joinpath (joinpath source_root folder) (mkPath false [name]))
    source_root destination_root
  = Some [ Mkdir (joinpath destination_root folder);
           Copy2 (joinpath (joinpath source_root folder) (mkPath false [name]))
                 (joinpath (joinpath destination_root folder) (mkPath false [name])) ].
Proof.
  intros Hfolder.
  destruct source_root as [sa sp], destination_root as [da dp], folder as [fa fp].
  cbn in Hfolder. subst fa.
  unfold copy_video_with_structure, joinpath. cbn [absolute parts].
  rewrite <- (assoc_L (++)), relative_to_prefix.
  cbn [mbind option_bind ensure_directory_exists app absolute parts].
  unfold parent. cbn [absolute parts].
  rewrite !(assoc_L (++)), length_app. cbn [length].
  replace (length (dp ++ fp) + 1 - 1)%nat with (length (dp ++ fp)) by lia.
  by rewrite take_app_length.
Qed.

(** ** Listing the videos of the repository *)

Import LoadDataset.

Lemma split_no_sep sep s : occurs sep s = false → split sep s = [s].
Proof.
  induction s as [|c s IH]; [done|]. simpl.
  intros [Hc Hs]%orb_false_iff. rewrite Hc. by rewrite (IH Hs).
Qed.

Lemma split_app_sep sep cls tail :
  occurs sep cls = false →
  split sep (cls +:+ String sep tail) = cls :: split sep tail.
Proof.
  induction cls as [|c cls IH]; simpl.
  - intros _. by rewrite Ascii.eqb_refl.
  - intros [Hc Hs]%orb_false_iff. rewrite Hc. by rewrite (IH Hs).
Qed.

Lemma split_cases sep s :
  occurs sep s = false
  ∨ ∃ cls tail, s = cls +:+ String sep tail ∧ occurs sep cls = false.
Proof.
  induction s as [|c s IH]; [by left|]. simpl.
  destruct (Ascii.eqb c sep) eqn:Hc.
  - right. exists EmptyString, s. apply Ascii.eqb_eq in Hc as ->. by split.
  - destruct IH as [Hs|(cls & tail & -> & Hcls)]; [by left|].
    right. exists (String c cls), tail. split; [done|]. simpl. by rewrite Hc.
Qed.

Lemma split_not_nil sep s : split sep s ≠ [].
Proof.
  destruct s as [|c s]; [done|]. simpl.
  destruct (Ascii.eqb c sep); [done|]. by destruct (split sep s).
Qed.

Lemma class_of_iff f cls :
  class_of f = Some cls
  ↔ endswith f FILE_EXT = true ∧ occurs "/" cls = false
    ∧ ∃ tail, f = cls +:+ String "/" tail.
Proof.
  unfold class_of. split.
  - destruct (endswith f FILE_EXT); [|done].
    destruct (split_cases "/" f) as [Hnone|(cls' & tail & -> & Hcls')].
    { by rewrite (split_no_sep _ _ Hnone). }
    rewrite (split_app_sep _ _ _ Hcls').
    destruct (split "/" tail) eqn:Htail; [by apply split_not_nil in Htail|].
    intros [= <-]. eauto.
  - intros (-> & Hcls & tail & ->). rewrite (split_app_sep _ _ _ Hcls).
    destruct (split "/" tail) eqn:Htail; [by apply split_not_nil in Htail | done].
Qed.

Lemma collect_step_class by_class f :
  collect_step by_class f
  = match class_of f with
    | Some cls => setdefault_append cls f by_class
    | None => by_class
    end.
Proof.
  unfold collect_step, class_of. destruct (endswith f FILE_EXT); [|done].
  cbn [negb]. by destruct (split "/" f) as [|cls [|part rest]].
Qed.

Lemma setdefault_append_keys cls f by_class :
  (setdefault_append cls f by_class).*1
  = if decide (cls ∈ by_class.*1) then by_class.*1 else by_class.*1 ++ [cls].
Proof.
  induction by_class as [|[key videos] others IH]; [done|]. simpl.
  destruct (String.eqb key cls) eqn:Hkey.
  - apply String.eqb_eq in Hkey as ->. rewrite decide_True by left. done.
  - apply String.eqb_neq in Hkey. rewrite fmap_cons, IH. cbn [fst].
    destruct (decide (cls ∈ others.*1)) as [Hin|Hin].
    + rewrite decide_True by by right. done.
    + rewrite decide_False; [done|]. by intros [?|?]%elem_of_cons.
Qed.

Lemma setdefault_append_elem cls f by_class key videos :
  NoDup by_class.*1 →
  (key, videos) ∈ setdefault_append cls f by_class →
  (key ≠ cls ∧ (key, videos) ∈ by_class)
  ∨ (key = cls
     ∧ ((∃ before, (cls, before) ∈ by_class ∧ videos = before ++ [f])
        ∨ ((cls ∉ by_class.*1) ∧ videos = [f]))).
Proof.
  induction by_class as [|[key' videos'] others IH]; simpl.
  { intros _ [= -> ->]%list_elem_of_singleton. right. split; [done|]. right.
    split; [apply not_elem_of_nil | done]. }
  intros [Hfresh Hnodup]%NoDup_cons.
  destruct (String.eqb key' cls) eqn:Hkey.
  - apply String.eqb_eq in Hkey as ->.
    intros [[= -> ->]|Hin]%elem_of_cons.
    + right. split; [done|]. left. exists videos'. split; [left | done].
    + left. split; [|by right]. intros ->. apply Hfresh.
      apply list_elem_of_fmap. by exists (cls, videos).
  - apply String.eqb_neq in Hkey.
    intros [[= -> ->]|Hin]%elem_of_cons.
    + left. split; [done | left].
    + destruct (IH Hnodup Hin) as [[Hne Hold]|[-> [(before & Hold & ->)|[Hnew ->]]]].
      * left. split; [done | by right].
      * right. split; [done|]. left. exists before. split; [by right | done].
      * right. split; [done|]. right. split; [|done].
        by intros [?|?]%elem_of_cons.
Qed.

Lemma filter_none (P : string → Prop) `{∀ x, Decision (P x)} l :
  (∀ x, x ∈ l → ¬ P x) → filter P l = [].
Proof.
  induction l as [|x l IH]; intros Hnone; [done|].
  rewrite filter_cons, decide_False by (apply Hnone; left).
  apply IH. intros y Hy. apply Hnone. by right.
Qed.

(** What the dictionary holds after the loop has gone through [files]. *)
Lemma collect_step_inv files by_class f :
  (NoDup by_class.*1
   ∧ (∀ cls videos, (cls, videos) ∈ by_class →
        videos ≠ [] ∧ videos = filter (λ f, class_of f = Some cls) files)
   ∧ (∀ f cls, f ∈ files → class_of f = Some cls → cls ∈ by_class.*1)) →
  let by_class' := collect_step by_class f in
  NoDup by_class'.*1
  ∧ (∀ cls videos, (cls, videos) ∈ by_class' →
       videos ≠ [] ∧ videos = filter (λ f, class_of f = Some cls) (files ++ [f]))
  ∧ (∀ f' cls, f' ∈ files ++ [f] → class_of f' = Some cls → cls ∈ by_class'.*1).
Proof.
  intros (Hnodup & Hvideos & Hkeys). cbn zeta. rewrite collect_step_class.
  destruct (class_of f) as [c|] eqn:Hclass.
  - split_and!.
    + rewrite setdefault_append_keys. case_decide; [done|].
      apply NoDup_app. split_and!; [done | | apply NoDup_singleton].
      intros key Hkey Hkey'%list_elem_of_singleton. by subst.
    + intros cls videos Hin. rewrite filter_app, filter_cons, filter_nil.
      destruct (setdefault_append_elem _ _ _ _ _ Hnodup Hin)
        as [[Hne Hold]|[-> [(before & Hold & ->)|[Hnew ->]]]].
      * destruct (Hvideos _ _ Hold) as [Hnil ->]. split; [done|].
        rewrite decide_False by congruence. by rewrite (right_id_L [] (++)).
      * destruct (Hvideos _ _ Hold) as [Hnil ->]. rewrite decide_True by done.
        split; [|done]. by destruct (filter _ files).
      * rewrite decide_True by done. split; [done|].
        replace (filter (λ f, class_of f = Some c) files) with (@nil string); [done|].
        symmetry. apply filter_none. intros f' Hf' Hc.
        apply Hnew. by eapply Hkeys.
    + intros f' cls [Hf'|Hf']%elem_of_app Hcls;
        rewrite setdefault_append_keys; case_decide.
      * by eapply Hkeys.
      * apply elem_of_app. left. by eapply Hkeys.
      * apply list_elem_of_singleton in Hf'. congruence.
      * apply list_elem_of_singleton in Hf'. apply elem_of_app. right.
        apply list_elem_of_singleton. congruence.
  - split_and!; [done| |].
    + intros cls videos Hin. destruct (Hvideos _ _ Hin) as [Hnil ->]. split; [done|].
      rewrite filter_app, filter_cons, filter_nil.
      rewrite decide_False by congruence. by rewrite (right_id_L [] (++)).
    + intros f' cls [Hf'|Hf']%elem_of_app Hcls.
      * by eapply Hkeys.
      * apply list_elem_of_singleton in Hf'. congruence.
Qed.

Lemma collect_videos_inv all_files :
  let by_class := (collect_videos all_files).1 in
  NoDup by_class.*1
  ∧ (∀ cls videos, (cls, videos) ∈ by_class →
       videos ≠ [] ∧ videos = filter (λ f, class_of f = Some cls) all_files)
  ∧ (∀ f cls, f ∈ all_files → class_of f = Some cls → cls ∈ by_class.*1).
Proof.
  cbn zeta. unfold collect_videos. cbn [fst].
  assert (∀ rest files by_class,
            (NoDup by_class.*1
             ∧ (∀ cls videos, (cls, videos) ∈ by_class →
                  videos ≠ [] ∧ videos = filter (λ f, class_of f = Some cls) files)
             ∧ (∀ f cls, f ∈ files → class_of f = Some cls → cls ∈ by_class.*1)) →
            let by_class' := foldl collect_step by_class rest in
            NoDup by_class'.*1
            ∧ (∀ cls videos, (cls, videos) ∈ by_class' →
                 videos ≠ [] ∧ videos = filter (λ f, class_of f = Some cls) (files ++ rest))
            ∧ (∀ f cls, f ∈ files ++ rest → class_of f = Some cls → cls ∈ by_class'.*1))
    as Hloop.
  { induction rest as [|f rest IH]; intros files by_class Hinv; cbn zeta.
    - by rewrite (right_id_L [] (++)).
    - cbn [foldl]. rewrite (cons_middle f files rest), (assoc_L (++)).
      apply IH. by apply collect_step_inv. }
  apply (Hloop all_files [] []). split_and!.
  - constructor.
  - by intros cls videos ?%elem_of_nil.
  - by intros f cls ?%elem_of_nil.
Qed.


(** X28. A file is listed under a class exactly when it is in the
    repository listing, its name ends in ".mp4" as written (an upper
    case extension does not count), and the class is what stands
    before its first "/"; a file at the top level is in no class. *)
Theorem collected_iff_mp4_in_a_folder all_files cls f :
  (∃ videos, (cls, videos) ∈ (collect_videos all_files).1 ∧ f ∈ videos)
  ↔ f ∈ all_files ∧ endswith f ".mp4" = true ∧ occurs "/" cls = false
    ∧ ∃ tail, f = cls +:+ String "/" tail.
Proof.
  destruct (collect_videos_inv all_files) as (Hnodup & Hvideos & Hkeys).
  cbn zeta in *. rewrite <- (class_of_iff f cls). split.
  - intros (videos & Hin & Hf). destruct (Hvideos _ _ Hin) as [_ ->].
    by apply list_elem_of_filter in Hf as [? ?].
  - intros [Hf Hcls]. pose proof (Hkeys _ _ Hf Hcls) as Hkey.
    apply list_elem_of_fmap in Hkey as ([cls' videos] & Heq & Hin).
    cbn in Heq. subst cls'. exists videos. split; [done|].
    destruct (Hvideos _ _ Hin) as [_ ->]. by apply list_elem_of_filter.
Qed.


(** ** Deleting a folder of the repository *)

Import DeleteFolder.

Section DeleteMain.
Variable Repo : Type.
Variable delete_file : string → Repo → Repo * bool.

Lemma deletions_app events events' :
  deletions (events ++ events') = deletions events ++ deletions events'.
Proof. apply omap_app. Qed.

Lemma deletions_print_files files : deletions (PrintFile <$> files) = [].
Proof. induction files as [|f files IH]; [done|]. by rewrite fmap_cons. Qed.

Lemma delete_all_deletions to_delete repo :
  deletions (delete_all Repo delete_file to_delete repo).1 = to_delete.
Proof.
  revert repo. induction to_delete as [|f rest IH]; intros repo; [done|].
  cbn [delete_all]. destruct (delete_file f repo) as [repo' raised].
  specialize (IH repo'). destruct (delete_all Repo delete_file rest repo') as [events repo''].
  cbn [fst] in *. unfold deletions in *. destruct raised; cbn; by f_equal.
Qed.

Lemma delete_all_no_done to_delete repo :
  PrintDone ∉ (delete_all Repo delete_file to_delete repo).1.
Proof.
  revert repo. induction to_delete as [|f rest IH]; intros repo.
  { apply not_elem_of_nil. }
  cbn [delete_all]. destruct (delete_file f repo) as [repo' raised].
  specialize (IH repo'). destruct (delete_all Repo delete_file rest repo') as [events repo''].
  cbn [fst] in *. intros [?|[Hin|Hin]%elem_of_cons]%elem_of_cons; [done| |done].
  by destruct raised.
Qed.

(** The events of [main], laid out. *)
Lemma main_events token all_files repo :
  (main Repo delete_file token all_files repo).1
  = match token with
    | None | Some EmptyString => [PrintNoToken]
    | Some _ =>
        match filter (λ f, startswith f "knee_circles/" = true) all_files with
        | [] => [PrintScanning; PrintNoFiles]
        | to_delete =>
            [PrintScanning; PrintFound (length to_delete)]
            ++ (PrintFile <$> to_delete)
            ++ (delete_all Repo delete_file to_delete repo).1 ++ [PrintDone]
        end
    end.
Proof.
  unfold main. destruct token as [[|c token]|]; [done| |done].
  change (FOLDER +:+ "/") with "knee_circles/".
  destruct (filter _ all_files) as [|f to_delete]; [done|].
  unfold DRY_RUN.
  by destruct (delete_all Repo delete_file (f :: to_delete) repo) as [events repo'].
Qed.

(** X29. Without a token ([HF_TOKEN] unset or empty) no deletion is
    requested.  With a token, a deletion is requested once for every
    file of the listing whose path starts with "knee_circles/", in the
    order of the listing, and for no other file - whichever of the
    requests raise: a failed request does not stop the loop. *)
Theorem deletions_are_the_folder_files token all_files repo :
  deletions (main Repo delete_file token all_files repo).1
  = match token with
    | None | Some EmptyString => []
    | Some _ => filter (λ f, startswith f "knee_circles/" = true) all_files
    end.
Proof.
  rewrite main_events. destruct token as [[|c token]|]; [done| |done].
  destruct (filter _ all_files) as [|f to_delete]; [done|].
  rewrite !deletions_app, deletions_print_files, delete_all_deletions. cbn.
  by rewrite (right_id_L [] (++)).
Qed.

(** X30. The closing message that the folder was deleted is printed
    exactly when there is a token and some file of the listing lies
    under the folder - whether the deletions went through or every
    one of them raised. *)
Theorem done_printed_whatever_failed token all_files repo :
  PrintDone ∈ (main Repo delete_file token all_files repo).1
  ↔ ∃ c token' f, token = Some (String c token') ∧ f ∈ all_files
                  ∧ startswith f "knee_circles/" = true.
Proof.
  rewrite main_events. destruct token as [[|c token]|].
  - split; [by intros [?|?%elem_of_nil]%elem_of_cons | by intros (? & ? & ? & ? & _)].
  - destruct (filter _ all_files) as [|f to_delete] eqn:Hfilter.
    + split.
      * by intros [?|[?|?%elem_of_nil]%elem_of_cons]%elem_of_cons.
      * intros (? & ? & f & _ & Hf & Hstart).
        assert (f ∈ filter (λ f, startswith f "knee_circles/" = true) all_files) as Hin
          by by apply list_elem_of_filter.
        rewrite Hfilter in Hin. by apply elem_of_nil in Hin.
    + split.
      * intros _. exists c, token, f. split; [done|].
        assert (f ∈ filter (λ f, startswith f "knee_circles/" = true) all_files) as Hin
          by (rewrite Hfilter; left).
        by apply list_elem_of_filter in Hin as [? ?].
      * intros _. rewrite !elem_of_app. do 3 right. left.
  - split; [by intros [?|?%elem_of_nil]%elem_of_cons | by intros (? & ? & ? & ? & _)].
Qed.

End DeleteMain.


(** ** The further properties on the examples *)

Lemma unopened_file_is_rejected_witness :
  (analyze_video_quality (H := row_images) squat_flags 30 unopened 20 15 "squat"
     ≫= λ '(metrics, issues, _),
          evaluate_video_acceptance metrics issues (default_stats "squat"))
  = Some (false, ["corrupted_file"],
          <["corrupted_files" := PyInt (0 + 1)]> (default_stats "squat")).
Proof.
  apply (unopened_file_is_rejected (H := row_images) squat_flags 30 unopened 20 15
           "squat" (default_stats "squat") 0); reflexivity.
Defined.

Lemma corrupted_issue_iff_no_frame_witness :
  ∃ metrics issues trace,
    (∀ fuel,
       (Z.to_nat (index_bound 20 15 undecodable.(CAP_PROP_FRAME_COUNT)) ≤ fuel)%nat →
       analyze_video_quality (H := row_images) squat_flags fuel undecodable 20 15 "squat"
       = Some (metrics, issues, trace))
    ∧ (decoded undecodable (positions trace) = 0 →
         issues = ["corrupted_file"]
         ∧ metrics.(mean_brightness) = Some nan
         ∧ metrics.(sharpness_score) = Some nan)
    ∧ (decoded undecodable (positions trace) ≠ 0 → issues = []).
Proof.
  apply (corrupted_issue_iff_no_frame (H := row_images) squat_flags undecodable 20 15
           "squat"); [reflexivity | lia].
Defined.


Lemma motion_pairs_count_witness :
  ∃ metrics issues trace p a,
    (∀ fuel,
       (Z.to_nat (index_bound 20 15 single_frame.(CAP_PROP_FRAME_COUNT)) ≤ fuel)%nat →
       analyze_video_quality (H := row_images) squat_flags fuel single_frame 20 15 "squat"
       = Some (metrics, issues, trace))
    ∧ metrics.(motion_pairs) = Some p ∧ metrics.(motion_active_pairs) = Some a
    ∧ 0 ≤ a ≤ p
    ∧ p = if default false (squat_flags !! "squat")
          then Z.max 0 (decoded single_frame (positions trace) - 1) else 0.
Proof.
  apply (motion_pairs_count (H := row_images) squat_flags single_frame 20 15 "squat");
    [reflexivity | lia].
Defined.


Lemma calls_in_order_witness :
  ∃ metrics issues trace,
    (∀ fuel,
       (Z.to_nat (index_bound 20 15 dark_clip.(CAP_PROP_FRAME_COUNT)) ≤ fuel)%nat →
       analyze_video_quality (H := row_images) squat_flags fuel dark_clip 20 15 "plank"
       = Some (metrics, issues, trace))
    ∧ trace = opening_calls ++ visits (positions trace) ++ [CallRelease].
Proof.
  apply (calls_in_order (H := row_images) squat_flags dark_clip 20 15 "plank");
    [reflexivity | lia].
Defined.

Lemma no_samples_requested_witness :
  ∃ metrics,
    analyze_video_quality (H := row_images) squat_flags 0 good_clip 0 15 "squat"
    = Some (metrics, ["corrupted_file"], opening_calls ++ [CallRelease])
    ∧ metrics.(mean_brightness) = Some nan.
Proof.
  apply (no_samples_requested (H := row_images) squat_flags 0 good_clip 0 15 "squat");
    [reflexivity | lia].
Defined.

Lemma stride_zero_never_returns_witness :
  analyze_video_quality (H := row_images) squat_flags 1000 undecodable 20 0 "squat" = None.
Proof.
  apply (stride_zero_never_returns (H := row_images) squat_flags 1000 undecodable 20
           "squat"); [reflexivity | lia | reflexivity].
Defined.

Lemma decodable_video_sampled_at_stride_witness :
  ∃ metrics issues trace,
    analyze_video_quality (H := row_images) squat_flags (Z.to_nat 2) dark_clip 2 15 "squat"
    = Some (metrics, issues, trace)
    ∧ positions trace = (λ k : nat, Z.of_nat k * 15) <$> seq 0 (Z.to_nat 2)
    ∧ decoded dark_clip (positions trace) = 2
    ∧ (1 ≤ 2 → issues = []).
Proof.
  apply (decodable_video_sampled_at_stride (H := row_images) squat_flags dark_clip 2 15
           "squat"); [reflexivity | lia | lia |].
  intros k Hk. assert (k = 0 ∨ k = 1) as [-> | ->] by lia; by eexists.
Defined.

Lemma second_evaluation_counts_again_witness :
  ∃ stats'',
    evaluate_video_acceptance small_dark_blurry_still []
      (foldl bump (default_stats "squat") four_reasons)
    = Some (false, four_reasons, stats'')
    ∧ ∀ reason, reason ∈ four_reasons →
        ∃ n, default_stats "squat" !! counter_of reason = Some (PyInt n)
             ∧ stats'' !! counter_of reason = Some (PyInt (n + 2)).
Proof.
  apply (second_evaluation_counts_again small_dark_blurry_still [] (default_stats "squat")
           false four_reasons (foldl bump (default_stats "squat") four_reasons)).
  reflexivity.
Defined.

Lemma reasons_in_check_order_witness :
  (four_reasons = ["corrupted_file"]
   ∨ four_reasons `sublist_of` ["low_resolution"; "too_dark"; "too_bright"; "blurry";
                                "insufficient_motion"])
  ∧ NoDup four_reasons
  ∧ (length four_reasons ≤ 4)%nat.
Proof.
  apply (reasons_in_check_order small_dark_blurry_still [] (default_stats "squat")
           false four_reasons (foldl bump (default_stats "squat") four_reasons)).
  reflexivity.
Defined.

Lemma accepted_iff_all_checks_pass_witness :
  false = true ↔
    ("corrupted_file" ∉ @nil string)
    ∧ ¬ undefined small_dark_blurry_still.(mean_brightness)
    ∧ ¬ undefined small_dark_blurry_still.(sharpness_score)
    ∧ 640 ≤ default 0 small_dark_blurry_still.(width)
    ∧ 360 ≤ default 0 small_dark_blurry_still.(height)
    ∧ lt (default nan small_dark_blurry_still.(mean_brightness)) (of_int 35) = false
    ∧ gt (default nan small_dark_blurry_still.(mean_brightness)) (of_int 190) = false
    ∧ lt (default nan small_dark_blurry_still.(sharpness_score)) (of_int 50) = false
    ∧ (default false small_dark_blurry_still.(motion_flag) = true →
       default false small_dark_blurry_still.(motion_detected) = true).
Proof.
  apply (accepted_iff_all_checks_pass small_dark_blurry_still [] (default_stats "squat")
           false four_reasons (foldl bump (default_stats "squat") four_reasons)).
  reflexivity.
Defined.

Lemma within_thresholds_accepted_witness :
  evaluate_video_acceptance on_the_thresholds [] ∅ = Some (true, [], ∅).
Proof.
  apply (within_thresholds_accepted on_the_thresholds [] ∅);
    [apply not_elem_of_nil | cbn; lia | cbn; lia
     | reflexivity | reflexivity | reflexivity | reflexivity].
Defined.

Lemma folder_without_videos_is_skipped_witness :
  process_folder (H := row_images) squat_flags
    (mkRun [] [] [] (default_stats "ALL_EXERCISES"))
    ("docs", [("notes.txt", unopened); ("labels.json", unopened)])
  = Some (mkRun [] [] [] (default_stats "ALL_EXERCISES")).
Proof.
  apply (folder_without_videos_is_skipped (H := row_images) squat_flags
           (mkRun [] [] [] (default_stats "ALL_EXERCISES")) "docs"
           [("notes.txt", unopened); ("labels.json", unopened)]).
  reflexivity.
Defined.

Lemma extension_case_is_ignored_witness : is_video ("Squat_01" +:+ ".Mp4") = true.
Proof.
  apply (extension_case_is_ignored "Squat_01" ".Mp4").
  apply (bool_decide_unpack _). reflexivity.
Defined.

Lemma copy_keeps_relative_path_witness :
  ∃ target,
    [ Mkdir (mkPath false ["cleaned_dataset"; "squat"]);
      Copy2 (mkPath false ["dataset"; "squat"; "a.mp4"])
            (mkPath false ["cleaned_dataset"; "squat"; "a.mp4"]) ]
    = [ Mkdir (parent target);
        Copy2 (mkPath false ["dataset"; "squat"; "a.mp4"]) target ]
    ∧ relative_to target (mkPath false ["cleaned_dataset"])
      = relative_to (mkPath false ["dataset"; "squat"; "a.mp4"]) (mkPath false ["dataset"]).
Proof.
  apply (copy_keeps_relative_path (mkPath false ["dataset"; "squat"; "a.mp4"])
           (mkPath false ["dataset"]) (mkPath false ["cleaned_dataset"])).
  reflexivity.
Defined.

Lemma copy_of_a_walked_file_witness :
  copy_video_with_structure
    (joinpath (joinpath (mkPath false ["dataset"]) (mkPath false ["squat"]))
              (mkPath false ["a.mp4"]))
    (mkPath false ["dataset"]) (mkPath false ["cleaned_dataset"])
  = Some [ Mkdir (joinpath (mkPath false ["cleaned_dataset"]) (mkPath false ["squat"]));
           Copy2 (joinpath (joinpath (mkPath false ["dataset"]) (mkPath false ["squat"]))
                           (mkPath false ["a.mp4"]))
                 (joinpath (joinpath (mkPath false ["cleaned_dataset"])
                                     (mkPath false ["squat"]))
                           (mkPath false ["a.mp4"])) ].
Proof.
  apply (copy_of_a_walked_file (mkPath false ["dataset"]) (mkPath false ["cleaned_dataset"])
           (mkPath false ["squat"]) "a.mp4").
  reflexivity.
Defined.
